(** * glogrus2: request-logging middleware, embedded and verified

    The development follows [glogrus.go].  The middleware is effectful Go:
    it reads the clock, calls an injected resolver, appends records to a
    logrus sink, and delegates to a wrapped [http.Handler] through a
    status-capturing response writer.  The embedding threads an explicit
    [World] through a small state-and-panic monad; the wrapped handler, which
    is code outside the repository, is represented by the behaviour it shows
    to the middleware during one call. *)

From Stdlib Require Import ZArith String Ascii List Lia.
From Stdlib Require Import Strings.Byte.
From Stdlib Require Import Floats.SpecFloat.
From Stdlib Require Import QArith Qpower Qabs Lqa.
From stdpp Require Import base gmap strings list.

Local Open Scope Z_scope.

(** ** Values that travel through the logger *)

(** logrus levels; the middleware only ever uses [InfoLevel]. *)
Inductive Level : Set :=
  | PanicLevel | FatalLevel | ErrorLevel | WarnLevel
  | InfoLevel | DebugLevel | TraceLevel.

(** A field value of [logrus.Fields] as this program fills it: Go strings
    and the [int] status. *)
Inductive Value : Set :=
  | VString (s : string)
  | VInt (n : Z).

(** One call [l.WithFields(data).<Level>(message)]. *)
Record Entry : Type := mkEntry {
  level : Level;
  message : string;
  data : gmap string Value
}.

(** A [*logrus.Logger] and an [http.ResponseWriter] are references to
    objects owned by the host; they are identified by an address. *)
Definition Logger := nat.
Definition ResponseWriter := nat.

(** What reaches the transport below the middleware. *)
Inductive WireOp : Type :=
  | WireHeader (code : Z)
  | WireBody (buf : list byte).

(** Everything the middleware does that its surroundings can see, plus the
    three points where it hands control to code outside the repository. *)
Inductive Event : Type :=
  | EvLog (l : Logger) (e : Entry)             (* a record reaches the sink *)
  | EvWire (w : ResponseWriter) (op : WireOp)  (* a call on the wrapped writer *)
  | EvResolve                                  (* the resolver is called *)
  | EvEnter                                    (* h.ServeHTTP is called *)
  | EvLeave.                                   (* h.ServeHTTP has returned *)

(** ** The world the middleware runs in *)

Record World : Type := mkWorld {
  clock : Z;                 (* monotonic reading, ns *)
  history : list Event       (* oldest first *)
}.

Inductive Outcome (A : Type) : Type :=
  | Normal (a : A) (σ : World)
  | Panicked (v : string) (σ : World).
Arguments Normal {A} a σ.
Arguments Panicked {A} v σ.

Definition M (A : Type) : Type := World → Outcome A.

Definition M_unit {A} (a : A) : M A := λ σ, Normal a σ.
Definition M_seq {A B} (k : A → M B) (m : M A) : M B :=
  λ σ, match m σ with
       | Normal a σ' => k a σ'
       | Panicked v σ' => Panicked v σ'
       end.

Global Instance M_ret : MRet M := @M_unit.
Global Instance M_bind : MBind M := @M_seq.

Definition panic {A} (v : string) : M A := λ σ, Panicked v σ.

Definition final_world {A} (o : Outcome A) : World :=
  match o with Normal _ σ => σ | Panicked _ σ => σ end.

(** The events a run added to the history it started from. *)
Definition added {A} (σ : World) (o : Outcome A) : list Event :=
  drop (length (history σ)) (history (final_world o)).

(** The records among some events, and how many carry a given event name. *)
Definition records (evs : list Event) : list Entry :=
  omap (λ ev, match ev with EvLog _ e => Some e | _ => None end) evs.

(** The calls into code outside the repository among some events. *)
Definition calls (evs : list Event) : list Event :=
  omap (λ ev, match ev with
              | EvResolve => Some EvResolve
              | EvEnter => Some EvEnter
              | _ => None
              end) evs.

Definition named (msg : string) (evs : list Event) : list Entry :=
  filter (λ e, message e = msg) (records evs).

(** ** Host primitives: clock, sink, transport *)

(** [time.Duration] is an int64 count of nanoseconds. *)
Definition maxDuration : Z := 2 ^ 63 - 1.
Definition minDuration : Z := - 2 ^ 63.
Definition Millisecond : Z := 1000000.

(** [time.Now()]: the monotonic reading of the clock. *)
Definition time_Now : M Z := λ σ, Normal (clock σ) σ.

(** [time.Since(start)]: the difference of the two monotonic readings,
    saturated to the range of [time.Duration]. *)
Definition saturate (d : Z) : Z := Z.max minDuration (Z.min d maxDuration).
Definition time_Since (start : Z) : M Z :=
  λ σ, Normal (saturate (clock σ - start)) σ.

(** Time passing while the handler runs; the clock never runs backwards.
    Within one call time is spent in the handler only; between the
    statements of interleaved calls it is spent by the other call. *)
Definition elapse (d : N) : M unit :=
  λ σ, Normal tt (mkWorld (clock σ + Z.of_N d) (history σ)).

Definition emit (ev : Event) : M unit :=
  λ σ, Normal tt (mkWorld (clock σ) (history σ ++ [ev])).

(** [l.WithFields(fields).Info(msg)]. *)
Definition Info (l : Logger) (fields : gmap string Value) (msg : string) : M unit :=
  emit (EvLog l (mkEntry InfoLevel msg fields)).

Definition send (w : ResponseWriter) (op : WireOp) : M unit :=
  emit (EvWire w op).

(** ** float64 and the latency format *)

Definition float64_of_int (n : Z) : spec_float := binary_normalize 53 1024 n 0 false.
Definition float64_div (x y : spec_float) : spec_float := SFdiv 53 1024 x y.

(** Nearest integer to [m * 2^e * 10^4], ties to even: the digits that a
    fixed-point rendering with four decimals shows. *)
Definition scaled_round (m : positive) (e : Z) : Z :=
  if 0 <=? e then Z.pos m * 2 ^ e * 10000
  else
    let den := 2 ^ (- e) in
    let num := Z.pos m * 10000 in
    let q := num / den in
    match 2 * (num mod den) ?= den with
    | Lt => q
    | Gt => q + 1
    | Eq => if Z.even q then q else q + 1
    end.

Definition digit (d : Z) : ascii := ascii_of_nat (48 + Z.to_nat d).

Fixpoint decimal_go (fuel : nat) (n : Z) (acc : string) : string :=
  match fuel with
  | O => acc
  | S fuel' =>
      let acc' := String (digit (n mod 10)) acc in
      if n <? 10 then acc' else decimal_go fuel' (n / 10) acc'
  end.

(** Decimal numeral of a non-negative integer. *)
Definition decimal (n : Z) : string := decimal_go (S (Z.to_nat (Z.log2 n))) n "".

Definition frac4 (n : Z) : string :=
  String (digit (n / 1000 mod 10)) (String (digit (n / 100 mod 10))
    (String (digit (n / 10 mod 10)) (String (digit (n mod 10)) ""))).

Definition fixed4 (neg : bool) (n : Z) : string :=
  ((if neg then "-" else "") +:+ decimal (n / 10000) +:+ "." +:+ frac4 n)%string.

(** The verb [%.4f] applied to a float64. *)
Definition format_f4 (x : spec_float) : string :=
  match x with
  | S754_nan => "NaN"
  | S754_infinity s => if s then "-Inf" else "+Inf"
  | S754_zero s => fixed4 s 0
  | S754_finite s m e => fixed4 s (scaled_round m e)
  end.

Fixpoint blanks (n : nat) : string :=
  match n with O => "" | S n' => String " " (blanks n') end.

(** Minimum field width: pad with blanks on the left. *)
Definition pad_left (width : nat) (s : string) : string :=
  (blanks (width - String.length s) +:+ s)%string.

(** [fmt.Sprintf("%6.4f ms", latency)]. *)
Definition Sprintf_latency (latency : spec_float) : string :=
  (pad_left 6 (format_f4 latency) +:+ " ms")%string.

(** [float64(d) / float64(time.Millisecond)]. *)
Definition latency_ms (d : Z) : spec_float :=
  float64_div (float64_of_int d) (float64_of_int Millisecond).

(** ** Reading the latency field *)

Definition is_digit (c : ascii) : bool :=
  (48 <=? nat_of_ascii c)%nat && (nat_of_ascii c <=? 57)%nat.

Fixpoint all_digits (s : string) : bool :=
  match s with
  | EmptyString => true
  | String c s' => is_digit c && all_digits s'
  end.

(** The number a string of decimal digits denotes, continuing from [v]. *)
Fixpoint number_from (v : Z) (s : string) : Z :=
  match s with
  | EmptyString => v
  | String c s' => number_from (10 * v + (Z.of_nat (nat_of_ascii c) - 48)) s'
  end.

Definition number (s : string) : Z := number_from 0 s.

(** [x] is [+0] or a positive finite float64. *)
Definition nonneg_finite (x : spec_float) : Prop :=
  x = S754_zero false ∨ ∃ m e, x = S754_finite false m e.

(** [n / 10^4] is a decimal with four places nearest to the non-negative [x]. *)
Definition nearest4 (x : spec_float) (n : Z) : Prop :=
  match x with
  | S754_zero false => n = 0
  | S754_finite false m e =>
      if 0 <=? e then n = Z.pos m * 2 ^ e * 10000
      else 2 * Z.abs (n * 2 ^ (- e) - Z.pos m * 10000) ≤ 2 ^ (- e)
  | _ => False
  end.

(** The rational number a float64 stands for (infinities and NaN, which the
    latency never is, are sent to 0). *)
Definition F2Q (x : spec_float) : Q :=
  match x with
  | S754_finite s m e =>
      ((if s then -1 else 1) * inject_Z (Z.pos m) * 2 ^ e)%Q
  | _ => 0%Q
  end.

(** A float64 that is [+0] or positive and finite, with a mantissa of at
    most [D] bits and an exponent between [lo] and [hi]. *)
Definition plain (D lo hi : Z) (x : spec_float) : Prop :=
  x = S754_zero false ∨
  ∃ m e, x = S754_finite false m e ∧ Z.pos (digits2_pos m) ≤ D ∧ lo ≤ e ≤ hi.

(** ** Requests, resolvers and wrapped handlers *)

(** A call into code outside the repository either yields a value or panics. *)
Inductive Call (A : Type) : Type :=
  | Yields (a : A)
  | Throws (v : string).
Arguments Yields {A} a.
Arguments Throws {A} v.

Section Middleware.

(** [context.Context] is opaque to the middleware: it is only handed to the
    resolver. *)
Context {Ctx : Type}.

(** The part of [*http.Request] the middleware reads. *)
Record Request : Type := mkRequest {
  Method : string;
  RequestURI : string;
  RemoteAddr : string;
  Context : Ctx
}.

(** What a handler does during one [ServeHTTP(w, r)], in program order. *)
Inductive Action : Type :=
  | DoWriteHeader (code : Z)                (* w.WriteHeader(code) *)
  | DoWrite (buf : list byte)               (* w.Write(buf) *)
  | DoMutate (f : Request → Request)        (* assignment through r *)
  | DoElapse (d : N).                       (* time spent *)

Inductive Ending : Type :=
  | Returns
  | Panics (v : string).

Record Behaviour : Type := mkBehaviour {
  actions : list Action;
  ending : Ending
}.

(** An [http.Handler], seen from its caller: the request it receives decides
    what it does. *)
Definition Handler : Type := Request → Behaviour.

(** ** The response observer *)

(** Modelled from the spec: the type returned by [wrapWriter] is declared in
    a file of the repository that is not among the sources (section 3,
    ResponseObserver: the wrapped writer, a mutable status-written flag and
    the captured status code). *)
Record ResponseObserver : Type := mkObserver {
  underlying : ResponseWriter;
  statusWritten : bool;
  captured : Z
}.

(** Modelled from the spec: [wrapWriter] is missing from the sources; a
    fresh observer has written no status (its status field holds Go's zero
    value). *)
Definition wrapWriter (w : ResponseWriter) : ResponseObserver :=
  mkObserver w false 0.

(** Modelled from the spec: the method [WriteHeader] of the observer is
    missing from the sources (4.1: forwards the code to the underlying
    writer, records it as the captured status and marks the status written;
    only the first code observed is kept). *)
Definition WriteHeader (o : ResponseObserver) (code : Z) : M ResponseObserver :=
  _ ← send (underlying o) (WireHeader code);
  mret (if statusWritten o then o else mkObserver (underlying o) true code).

(** Modelled from the spec: the method [Write] of the observer is missing
    from the sources (4.1: if no status has been written the observer
    records 200 before it forwards the bytes). *)
Definition Write (o : ResponseObserver) (buf : list byte) : M ResponseObserver :=
  let o' := if statusWritten o then o else mkObserver (underlying o) true 200 in
  _ ← send (underlying o') (WireBody buf);
  mret o'.

(** Modelled from the spec: [maybeWriteHeader] is missing from the sources
    (4.1, FinalizeIfUnset: if no status was ever written it records and
    sends 200, otherwise it does nothing). *)
Definition maybeWriteHeader (o : ResponseObserver) : M ResponseObserver :=
  if statusWritten o then mret o else WriteHeader o 200.

(** Modelled from the spec: [status] is missing from the sources (4.1,
    CapturedStatus: the recorded status code). *)
Definition status (o : ResponseObserver) : Z := captured o.

(** ** Running the wrapped handler against the observer *)

Definition perform (a : Action) (o : ResponseObserver) (r : Request)
  : M (ResponseObserver * Request) :=
  match a with
  | DoWriteHeader code => o' ← WriteHeader o code; mret (o', r)
  | DoWrite buf => o' ← Write o buf; mret (o', r)
  | DoMutate f => mret (o, f r)
  | DoElapse d => _ ← elapse d; mret (o, r)
  end.

Fixpoint performAll (acts : list Action) (o : ResponseObserver) (r : Request)
  : M (ResponseObserver * Request) :=
  match acts with
  | [] => mret (o, r)
  | a :: rest => '(o', r') ← perform a o r; performAll rest o' r'
  end.

(** [h.ServeHTTP(lresp, r)]: both arguments are references, so the caller
    sees the observer and the request as the handler left them. *)
Definition ServeHTTP (h : Handler) (lresp : ResponseObserver) (r : Request)
  : M (ResponseObserver * Request) :=
  _ ← emit EvEnter;
  let b := h r in
  '(lresp', r') ← performAll (actions b) lresp r;
  match ending b with
  | Returns => _ ← emit EvLeave; mret (lresp', r')
  | Panics v => panic v
  end.

(** The resolver is a Go function value: calling it may panic. *)
Definition call {A} (c : Call A) : M A :=
  _ ← emit EvResolve;
  match c with
  | Yields a => mret a
  | Throws v => panic v
  end.

(** ** glogrus.go *)

Definition start_fields (reqID : string) (r : Request) : gmap string Value :=
  {[ "req_id" := VString reqID;
     "uri" := VString (RequestURI r);
     "method" := VString (Method r);
     "remote" := VString (RemoteAddr r) ]}.

Definition served_fields (reqID : string) (st : Z) (r : Request)
    (latency : spec_float) (name : string) : gmap string Value :=
  {[ "req_id" := VString reqID;
     "status" := VInt st;
     "method" := VString (Method r);
     "uri" := VString (RequestURI r);
     "remote" := VString (RemoteAddr r);
     "latency" := VString (Sprintf_latency latency);
     "app" := VString name ]}.

(** The closure [fn] of [NewGlogrusWithReqId]; the result is the request as
    the caller finds it behind [r] afterwards. *)
Definition fn (l : Logger) (name : string) (reqidf : Ctx → Call string)
    (h : Handler) (w : ResponseWriter) (r : Request) : M Request :=
  let ctx := Context r in
  start ← time_Now;
  reqID ← call (reqidf ctx);
  _ ← Info l (start_fields reqID r) "req_start";
  let lresp := wrapWriter w in
  '(lresp, r) ← ServeHTTP h lresp r;
  lresp ← maybeWriteHeader lresp;
  d ← time_Since start;
  let latency := latency_ms d in
  _ ← Info l (served_fields reqID (status lresp) r latency name) "req_served";
  mret r.

Definition NewGlogrusWithReqId (l : Logger) (name : string)
    (reqidf : Ctx → Call string) : Handler → ResponseWriter → Request → M Request :=
  λ h, fn l name reqidf h.

Definition emptyRequestId (ctx : Ctx) : Call string := Yields "".

Definition NewGlogrus (l : Logger) (name : string)
  : Handler → ResponseWriter → Request → M Request :=
  NewGlogrusWithReqId l name emptyRequestId.

(** ** What a handler's actions amount to

    Closed forms of [performAll], used to state what a run leaves behind. *)

Definition observe1 (a : Action) (o : ResponseObserver) : ResponseObserver :=
  match a with
  | DoWriteHeader code => if statusWritten o then o else mkObserver (underlying o) true code
  | DoWrite _ => if statusWritten o then o else mkObserver (underlying o) true 200
  | _ => o
  end.

Definition observe (acts : list Action) (o : ResponseObserver) : ResponseObserver :=
  fold_left (λ o a, observe1 a o) acts o.

Definition mutate (acts : list Action) (r : Request) : Request :=
  fold_left (λ r a, match a with DoMutate f => f r | _ => r end) acts r.

Definition spent (acts : list Action) : N :=
  fold_right (λ a n, match a with DoElapse d => (d + n)%N | _ => n end) 0%N acts.

Definition wired (w : ResponseWriter) (acts : list Action) : list Event :=
  omap (λ a, match a with
             | DoWriteHeader code => Some (EvWire w (WireHeader code))
             | DoWrite buf => Some (EvWire w (WireBody buf))
             | _ => None
             end) acts.

(** The status the specification promises for a handler that performs
    [acts]: the first code it set explicitly, 200 if body bytes came first,
    200 if it wrote nothing. *)
Fixpoint claimed_status (acts : list Action) : Z :=
  match acts with
  | [] => 200
  | DoWriteHeader code :: _ => code
  | DoWrite _ :: _ => 200
  | _ :: rest => claimed_status rest
  end.

(** What [maybeWriteHeader] sends for an observer in state [o]. *)
Definition finalized (o : ResponseObserver) : list Event :=
  if statusWritten o then [] else [EvWire (underlying o) (WireHeader 200)].

Definition start_entry (reqID : string) (r : Request) : Entry :=
  mkEntry InfoLevel "req_start" (start_fields reqID r).

Definition served_entry (reqID : string) (st : Z) (r : Request)
    (latency : spec_float) (name : string) : Entry :=
  mkEntry InfoLevel "req_served" (served_fields reqID st r latency name).

(** The events of one call of [fn], in order. *)
Definition trail (l : Logger) (name : string) (reqidf : Ctx → Call string)
    (h : Handler) (w : ResponseWriter) (r : Request) : list Event :=
  match reqidf (Context r) with
  | Throws _ => [EvResolve]
  | Yields reqID =>
      let acts := actions (h r) in
      [EvResolve; EvLog l (start_entry reqID r); EvEnter] ++ wired w acts ++
      match ending (h r) with
      | Panics _ => []
      | Returns =>
          [EvLeave] ++ finalized (observe acts (wrapWriter w)) ++
          [EvLog l (served_entry reqID (claimed_status acts) (mutate acts r)
                      (latency_ms (saturate (Z.of_N (spent acts)))) name)]
      end
  end.

(** Shapes of the two records (section 6 of the specification). *)
Definition string_at (k : string) (e : Entry) : Prop :=
  ∃ s, data e !! k = Some (VString s).
Definition int_at (k : string) (e : Entry) : Prop :=
  ∃ n, data e !! k = Some (VInt n).

Definition start_shape (e : Entry) : Prop :=
  level e = InfoLevel ∧ message e = "req_start" ∧
  dom (data e) = ({["req_id"; "uri"; "method"; "remote"]} : gset string) ∧
  string_at "req_id" e ∧ string_at "uri" e ∧ string_at "method" e ∧
  string_at "remote" e.

Definition served_shape (e : Entry) : Prop :=
  level e = InfoLevel ∧ message e = "req_served" ∧
  dom (data e) =
    ({["req_id"; "status"; "method"; "uri"; "remote"; "latency"; "app"]} : gset string) ∧
  string_at "req_id" e ∧ int_at "status" e ∧ string_at "method" e ∧
  string_at "uri" e ∧ string_at "remote" e ∧ string_at "latency" e ∧
  string_at "app" e.

End Middleware.

Arguments Request : clear implicits.
Arguments Action : clear implicits.
Arguments Behaviour : clear implicits.
Arguments Handler : clear implicits.

(** ** One call of [fn], statement by statement

    For requests served at the same time the host runs one call of [fn] per
    request; the calls share the clock and the sink and nothing else.  The
    stages below are the program points of [fn] together with its local
    variables; [step] executes the statement at that point. *)

Section Calls.

Context {Ctx : Type}.
Variables (l : Logger) (name : string) (reqidf : Ctx → Call string).

Inductive Stage : Type :=
  | AtNow (r : Request Ctx)
  | AtResolve (start : Z) (r : Request Ctx)
  | AtLogStart (start : Z) (reqID : string) (r : Request Ctx)
  | AtEnter (start : Z) (reqID : string) (r : Request Ctx)
  | InHandler (start : Z) (reqID : string) (lresp : ResponseObserver)
      (r : Request Ctx) (todo : list (Action Ctx)) (e : Ending)
  | AtFinalize (start : Z) (reqID : string) (lresp : ResponseObserver) (r : Request Ctx)
  | AtSince (start : Z) (reqID : string) (lresp : ResponseObserver) (r : Request Ctx)
  | AtLogServed (start : Z) (reqID : string) (lresp : ResponseObserver)
      (r : Request Ctx) (latency : spec_float)
  | Finished (r : Request Ctx)
  | Crashed (v : string).

Definition step (h : Handler Ctx) (w : ResponseWriter) (s : Stage) : M Stage :=
  match s with
  | AtNow r => start ← time_Now; mret (AtResolve start r)
  | AtResolve start r =>
      reqID ← call (reqidf (Context r)); mret (AtLogStart start reqID r)
  | AtLogStart start reqID r =>
      _ ← Info l (start_fields reqID r) "req_start"; mret (AtEnter start reqID r)
  | AtEnter start reqID r =>
      _ ← emit EvEnter;
      mret (InHandler start reqID (wrapWriter w) r (actions (h r)) (ending (h r)))
  | InHandler start reqID lresp r (a :: todo) e =>
      '(lresp', r') ← perform a lresp r; mret (InHandler start reqID lresp' r' todo e)
  | InHandler start reqID lresp r [] Returns =>
      _ ← emit EvLeave; mret (AtFinalize start reqID lresp r)
  | InHandler _ _ _ _ [] (Panics v) => panic v
  | AtFinalize start reqID lresp r =>
      lresp' ← maybeWriteHeader lresp; mret (AtSince start reqID lresp' r)
  | AtSince start reqID lresp r =>
      d ← time_Since start; mret (AtLogServed start reqID lresp r (latency_ms d))
  | AtLogServed start reqID lresp r latency =>
      _ ← Info l (served_fields reqID (status lresp) r latency name) "req_served";
      mret (Finished r)
  | Finished r => mret (Finished r)
  | Crashed v => mret (Crashed v)
  end.

(** One call in flight: the wrapped handler and the writer it was given, and
    where the call stands. *)
Record Thread : Type := mkThread {
  handler : Handler Ctx;
  writer : ResponseWriter;
  stage : Stage
}.

Definition spawn (h : Handler Ctx) (w : ResponseWriter) (r : Request Ctx) : Thread :=
  mkThread h w (AtNow r).

(** The scheduler lets a call execute one statement; a panic ends the call. *)
Definition advance (t : Thread) (σ : World) : Thread * World :=
  match step (handler t) (writer t) (stage t) σ with
  | Normal s' σ' => (mkThread (handler t) (writer t) s', σ')
  | Panicked v σ' => (mkThread (handler t) (writer t) (Crashed v), σ')
  end.

Fixpoint run_alone (fuel : nat) (t : Thread) (σ : World) : Thread * World :=
  match fuel with
  | O => (t, σ)
  | S fuel' => let '(t', σ') := advance t σ in run_alone fuel' t' σ'
  end.

Definition outcome_of (tσ : Thread * World) : option (Outcome (Request Ctx)) :=
  match stage tσ.1 with
  | Finished r => Some (Normal r tσ.2)
  | Crashed v => Some (Panicked v tσ.2)
  | _ => None
  end.

(** What the scheduler sees of one step: which call ran, what the clock
    showed, and the events the step added. *)
Record Slice : Type := mkSlice {
  who : bool;
  at_clock : Z;
  emitted : list Event
}.

(** Two calls in flight on the same middleware, interleaved by [sched]
    ([true] picks the first call). *)
Fixpoint interleave (sched : list bool) (ta tb : Thread) (σ : World)
  : list Slice * (Thread * Thread * World) :=
  match sched with
  | [] => ([], (ta, tb, σ))
  | i :: rest =>
      let '(t', σ') := advance (if i then ta else tb) σ in
      let sl := mkSlice i (clock σ) (drop (length (history σ)) (history σ')) in
      let '(sls, fin) :=
        interleave rest (if i then t' else ta) (if i then tb else t') σ' in
      (sl :: sls, fin)
  end.

Definition slices_of (i : bool) (sls : list Slice) : list Slice :=
  filter (λ sl, who sl = i) sls.

(** A call run by itself, on an empty history, with the clock showing the
    given readings at its successive steps. *)
Fixpoint replay (stamps : list Z) (t : Thread) : list (list Event) :=
  match stamps with
  | [] => []
  | c :: rest =>
      let '(t', σ') := advance t (mkWorld c []) in history σ' :: replay rest t'
  end.

(** The status a call is bound to log once it stands at stage [s]. *)
Definition settled (o : ResponseObserver) : Z :=
  if statusWritten o then captured o else 200.

Definition bound_for (z : Z) (t : Thread) : Prop :=
  match stage t with
  | AtNow r | AtResolve _ r | AtLogStart _ _ r | AtEnter _ _ r =>
      claimed_status (actions (handler t r)) = z
  | InHandler _ _ lresp _ todo _ => settled (observe todo lresp) = z
  | AtFinalize _ _ lresp _ => settled lresp = z
  | AtSince _ _ lresp _ | AtLogServed _ _ lresp _ _ => status lresp = z
  | Finished _ | Crashed _ => True
  end.

End Calls.

(** ** Scenarios of the specification (section 8) *)

Definition world0 : World := mkWorld 1000 [].

Definition ping : Request unit := mkRequest "GET" "/ping" "10.0.0.1:5555" tt.
Definition pong : Request unit := mkRequest "POST" "/pong" "10.0.0.2:6666" tt.

(** Scenario A: sets 404, writes no body (and takes 12.3456 ms). *)
Definition notFound : Handler unit :=
  λ _, mkBehaviour [DoElapse 12345600; DoWriteHeader 404] Returns.

(** Scenario B: writes body bytes without setting a status first. *)
Definition bodyOnly : Handler unit :=
  λ _, mkBehaviour [DoWrite [x68; x69]; DoWriteHeader 500] Returns.

(** Scenario C: does nothing. *)
Definition silent : Handler unit := λ _, mkBehaviour [] Returns.

Definition crashing : Handler unit :=
  λ _, mkBehaviour [DoWriteHeader 500] (Panics "boom").

(** A handler that assigns to [r.RequestURI]. *)
Definition rewriting : Handler unit :=
  λ _, mkBehaviour
         [DoMutate (λ r, mkRequest (Method r) "/other" (RemoteAddr r) (Context r))]
         Returns.

(** Scenario D: the resolver returns "req-123". *)
Definition fixedId : unit → Call string := λ _, Yields "req-123".

Definition failingId : unit → Call string := λ _, Throws "no id".

(** ** Views of the history used to state further properties *)

(** The sinks that received a record. *)
Definition sinks (evs : list Event) : list Logger :=
  omap (λ ev, match ev with EvLog l _ => Some l | _ => None end) evs.

(** An event with the application name taken out of its record. *)
Definition without_app (ev : Event) : Event :=
  match ev with
  | EvLog l e => EvLog l (mkEntry (level e) (message e) (delete "app" (data e)))
  | _ => ev
  end.

(** The event names a call standing at a stage of [fn] can still log, in
    order. *)
Definition still_to_log {Ctx : Type} (s : Stage (Ctx:=Ctx)) : list string :=
  match s with
  | AtNow _ | AtResolve _ _ | AtLogStart _ _ _ => ["req_start"; "req_served"]
  | AtEnter _ _ _ | InHandler _ _ _ _ _ _ | AtFinalize _ _ _ _
  | AtSince _ _ _ _ | AtLogServed _ _ _ _ _ => ["req_served"]
  | Finished _ | Crashed _ => []
  end.
(** The events of one call of [fn] whose [time.Since] reported [d]. *)
Definition trail_with {Ctx : Type} (l : Logger) (name : string)
    (reqidf : Ctx → Call string) (h : Handler Ctx) (w : ResponseWriter)
    (r : Request Ctx) (d : Z) : list Event :=
  match reqidf (Context r) with
  | Throws _ => [EvResolve]
  | Yields reqID =>
      let acts := actions (h r) in
      [EvResolve; EvLog l (start_entry reqID r); EvEnter] ++ wired w acts ++
      match ending (h r) with
      | Panics _ => []
      | Returns =>
          [EvLeave] ++ finalized (observe acts (wrapWriter w)) ++
          [EvLog l (served_entry reqID (claimed_status acts) (mutate acts r)
                      (latency_ms d) name)]
      end
  end.

(** * Properties *)

Ltac run :=
  unfold Info, send in *;
  unfold mbind, mret, M_bind, M_ret, M_seq, M_unit, panic, emit, elapse,
         time_Now, time_Since in *;
  cbn beta iota delta [clock history final_world] in *.

Section Runs.

Context {Ctx : Type}.
Implicit Types (r : Request Ctx) (h : Handler Ctx) (acts : list (Action Ctx)).
Implicit Types (o : ResponseObserver) (σ : World).

Lemma perform_eq (a : Action Ctx) o r σ :
  perform a o r σ =
  Normal (observe1 a o, mutate [a] r)
         (mkWorld (clock σ + Z.of_N (spent [a])) (history σ ++ wired (underlying o) [a])).
Proof.
  destruct σ as [t hs], a as [code|buf|f|d]; unfold perform, WriteHeader, Write; run; cbn.
  - by destruct (statusWritten o); rewrite Z.add_0_r.
  - by destruct (statusWritten o); rewrite Z.add_0_r.
  - by rewrite Z.add_0_r, app_nil_r.
  - by rewrite N.add_0_r, app_nil_r.
Qed.

Lemma observe1_underlying (a : Action Ctx) o : underlying (observe1 a o) = underlying o.
Proof. destruct a; cbn; try done; by destruct (statusWritten o). Qed.

Lemma performAll_eq acts o r σ :
  performAll acts o r σ =
  Normal (observe acts o, mutate acts r)
         (mkWorld (clock σ + Z.of_N (spent acts)) (history σ ++ wired (underlying o) acts)).
Proof.
  revert o r σ. induction acts as [|a acts IH]; intros o r σ.
  - destruct σ; cbn. by rewrite Z.add_0_r, app_nil_r.
  - cbn [performAll]. unfold mbind, M_bind, M_seq at 1. rewrite perform_eq.
    rewrite IH. cbn [clock history]. f_equal. rewrite observe1_underlying.
    f_equal.
    + unfold spent. destruct a; cbn; lia.
    + rewrite <- app_assoc. f_equal. by destruct a.
Qed.

Lemma maybeWriteHeader_eq o σ :
  maybeWriteHeader o σ =
  Normal (if statusWritten o then o else mkObserver (underlying o) true 200)
         (mkWorld (clock σ) (history σ ++ finalized o)).
Proof.
  unfold maybeWriteHeader, finalized. destruct (statusWritten o) eqn:E.
  - destruct σ; run; cbn. by rewrite app_nil_r.
  - unfold WriteHeader. rewrite E. by destruct σ.
Qed.

(** After the handler and the finalisation the observer holds the status
    the specification promises. *)
Lemma observe_written acts o : statusWritten o = true → observe acts o = o.
Proof.
  revert o. induction acts as [|a acts IH]; intros o E; [done|].
  cbn. replace (observe1 a o) with o; [by apply IH|].
  destruct a; cbn; by rewrite ?E.
Qed.

Lemma observe_fresh acts (w : ResponseWriter) :
  (if statusWritten (observe acts (wrapWriter w))
   then captured (observe acts (wrapWriter w)) else 200) = claimed_status acts.
Proof.
  induction acts as [|a acts IH]; [done|].
  destruct a; cbn [claimed_status]; try apply IH;
    change (observe (_ :: acts) (wrapWriter w)) with (observe acts (mkObserver w true ltac:(assumption || exact 200)));
    by rewrite observe_written.
Qed.

Lemma status_finalized acts (w : ResponseWriter) :
  let o := observe acts (wrapWriter w) in
  status (if statusWritten o then o else mkObserver (underlying o) true 200)
  = claimed_status acts.
Proof.
  cbn. rewrite <- (observe_fresh acts w). by destruct (statusWritten _).
Qed.

(** The outcome of one call of [fn], in closed form. *)
Lemma fn_eq (l : Logger) (name : string) (reqidf : Ctx → Call string) h
    (w : ResponseWriter) r σ :
  fn l name reqidf h w r σ =
  match reqidf (Context r) with
  | Throws v => Panicked v (mkWorld (clock σ) (history σ ++ [EvResolve]))
  | Yields reqID =>
      let acts := actions (h r) in
      let o := observe acts (wrapWriter w) in
      let t := clock σ + Z.of_N (spent acts) in
      let pre := history σ ++ [EvResolve; EvLog l (start_entry reqID r); EvEnter]
                   ++ wired w acts in
      match ending (h r) with
      | Panics v => Panicked v (mkWorld t pre)
      | Returns =>
          Normal (mutate acts r)
            (mkWorld t
               (pre ++ [EvLeave] ++ finalized o ++
                [EvLog l (served_entry reqID (claimed_status acts) (mutate acts r)
                            (latency_ms (saturate (Z.of_N (spent acts)))) name)]))
      end
  end.
Proof.
  unfold fn, call, ServeHTTP. destruct σ as [t0 hs].
  destruct (reqidf (Context r)) as [reqID|v]; run; [|done].
  rewrite performAll_eq. run. cbn [underlying wrapWriter].
  destruct (ending (h r)) as [|v]; run.
  - rewrite maybeWriteHeader_eq. run.
    rewrite status_finalized.
    replace (t0 + Z.of_N (spent (actions (h r))) - t0)
      with (Z.of_N (spent (actions (h r)))) by lia.
    by rewrite <- !app_assoc.
  - by rewrite <- !app_assoc.
Qed.

(** The events one call of [fn] adds to the history. *)
Lemma added_app {A} σ (o : Outcome A) evs :
  history (final_world o) = history σ ++ evs → added σ o = evs.
Proof. unfold added. intros ->. by rewrite drop_app_length. Qed.

Lemma fn_added (l : Logger) (name : string) (reqidf : Ctx → Call string) h
    (w : ResponseWriter) r σ :
  added σ (fn l name reqidf h w r σ) = trail l name reqidf h w r.
Proof.
  apply added_app. rewrite fn_eq. unfold trail.
  destruct (reqidf (Context r)); [|done].
  destruct (ending (h r)); cbn [final_world history]; by rewrite <- ?app_assoc, ?app_nil_r.
Qed.

Lemma records_app (a b : list Event) : records (a ++ b) = records a ++ records b.
Proof. apply omap_app. Qed.

Lemma records_wired (w : ResponseWriter) acts : records (wired w acts) = [].
Proof. induction acts as [|[] acts IH]; cbn; done. Qed.

Lemma records_finalized o : records (finalized o) = [].
Proof. unfold finalized. by destruct (statusWritten o). Qed.

Lemma records_trail (l : Logger) (name : string) (reqidf : Ctx → Call string) h
    (w : ResponseWriter) r :
  records (trail l name reqidf h w r) =
  match reqidf (Context r) with
  | Throws _ => []
  | Yields reqID =>
      start_entry reqID r ::
      match ending (h r) with
      | Panics _ => []
      | Returns =>
          [served_entry reqID (claimed_status (actions (h r)))
             (mutate (actions (h r)) r)
             (latency_ms (saturate (Z.of_N (spent (actions (h r)))))) name]
      end
  end.
Proof.
  unfold trail. destruct (reqidf (Context r)); [|done].
  cbn zeta. rewrite !records_app, records_wired. cbn [app].
  destruct (ending (h r)); [|done].
  change (EvLeave :: ?x) with ([EvLeave] ++ x).
  by rewrite !records_app, records_finalized.
Qed.

End Runs.


(** ** float64 arithmetic and the format of the latency *)

Lemma digits2_pos_size (p : positive) : digits2_pos p = Pos.size p.
Proof. induction p as [p IH|p IH|]; cbn; by rewrite ?IH. Qed.

Lemma Zdigits2_log2 (m : Z) : 0 < m → Zdigits2 m = Z.log2 m + 1.
Proof.
  destruct m as [|p|p]; try lia. intros _. cbn [Zdigits2].
  rewrite digits2_pos_size. destruct p; cbn [Pos.size Z.log2]; lia.
Qed.

Lemma Zdigits2_nonneg (m : Z) : 0 ≤ Zdigits2 m.
Proof. destruct m; cbn; lia. Qed.

Lemma Zdigits2_mono (a b : Z) : 0 ≤ a ≤ b → Zdigits2 a ≤ Zdigits2 b.
Proof.
  intros [Ha Hab]. destruct (decide (a = 0)) as [->|]; [apply Zdigits2_nonneg|].
  rewrite !Zdigits2_log2 by lia. pose proof (Z.log2_le_mono a b Hab). lia.
Qed.

Lemma Zdigits2_succ (a : Z) : 0 ≤ a → Zdigits2 (a + 1) ≤ Zdigits2 a + 1.
Proof.
  intros Ha. destruct (decide (a = 0)) as [->|]; [done|].
  rewrite !Zdigits2_log2 by lia. pose proof (Z.log2_succ_le a). unfold Z.succ in *. lia.
Qed.

Lemma Zdigits2_shiftl (a s : Z) : 0 < a → 0 ≤ s → Zdigits2 (Z.shiftl a s) = Zdigits2 a + s.
Proof.
  intros Ha Hs. rewrite !Zdigits2_log2, Z.log2_shiftl; try lia.
  rewrite Z.shiftl_mul_pow2 by done. apply Z.mul_pos_pos; [done|]. by apply Z.pow_pos_nonneg.
Qed.

(** Shifting right never enlarges a non-negative mantissa. *)
Lemma shr_1_range (M : Z) (mrs : shr_record) :
  0 ≤ shr_m mrs ≤ M → 0 ≤ shr_m (shr_1 mrs) ≤ M.
Proof.
  destruct mrs as [m rb sb]. cbn [shr_m]. intros H.
  destruct m as [|[p|p|]|p]; cbn; lia.
Qed.

Lemma iter_pos_preserves {A} (f : A → A) (P : A → Prop) :
  (∀ x, P x → P (f x)) → ∀ n x, P x → P (SpecFloat.iter_pos f n x).
Proof.
  intros Hf. induction n as [n IH|n IH|]; intros x Hx; cbn; auto.
Qed.

Lemma shr_range (M : Z) (mrs : shr_record) (e n : Z) :
  0 ≤ shr_m mrs ≤ M →
  0 ≤ shr_m (shr mrs e n).1 ≤ M ∧
  ((shr mrs e n).2 = e ∨ (0 < n ∧ (shr mrs e n).2 = e + n)).
Proof.
  intros H. destruct n as [|p|p]; cbn; [auto..| |auto].
  - split; [|right; lia]. by apply iter_pos_preserves; [apply shr_1_range|].
Qed.

Lemma shr_m_of_loc (m : Z) (lx : location) : shr_m (shr_record_of_loc m lx) = m.
Proof. by destruct lx as [|[]]. Qed.

Lemma round_nearest_even_range (m : Z) (lx : location) :
  m ≤ round_nearest_even m lx ≤ m + 1.
Proof. unfold round_nearest_even. destruct lx as [|[]]; try destruct (Z.even m); lia. Qed.

Lemma binary_round_aux_finite (s : bool) (m e : Z) (lx : location) (D E : Z) :
  0 ≤ m → Zdigits2 m ≤ D → e ≤ E → E + 2 * D ≤ 971 → D ≤ 2045 →
  binary_round_aux 53 1024 s m e lx = S754_zero s ∨
  ∃ m' e', binary_round_aux 53 1024 s m e lx = S754_finite s m' e' ∧
           Z.pos (digits2_pos m') ≤ D + 1 ∧ e ≤ e' ≤ Z.max (E + 2 * D) (D - 1074).
Proof.
  intros Hm HD HE HED HD'. pose proof (Zdigits2_nonneg m) as Hd0.
  unfold binary_round_aux, shr_fexp.
  destruct (shr_range m (shr_record_of_loc m lx) e
              (fexp 53 1024 (Zdigits2 m + e) - e)) as [Hm1 He1];
    [by rewrite shr_m_of_loc; lia|].
  destruct (shr _ e _) as [mrs1 e1]. cbn [fst snd] in Hm1, He1.
  pose proof (round_nearest_even_range (shr_m mrs1) (loc_of_shr_record mrs1)) as Hr.
  set (m2 := round_nearest_even _ _) in *.
  assert (Hd2 : Zdigits2 m2 ≤ D + 1).
  { etransitivity; [apply (Zdigits2_mono m2 (m + 1)); lia|].
    pose proof (Zdigits2_succ m Hm). lia. }
  pose proof (Zdigits2_nonneg m2) as Hd20.
  destruct (shr_range m2 (shr_record_of_loc m2 loc_Exact) e1
              (fexp 53 1024 (Zdigits2 m2 + e1) - e1)) as [Hm3 He3];
    [by rewrite shr_m_of_loc; lia|].
  destruct (shr _ e1 _) as [mrs2 e2]. cbn [fst snd] in Hm3, He3.
  unfold fexp, emin in *.
  destruct (shr_m mrs2) as [|p|p] eqn:Ep; [by left| |lia].
  right. destruct (Z.leb_spec e2 (1024 - 53)); [|lia].
  eexists _, _. split; [done|]. split.
  - change (Zdigits2 (Z.pos p) ≤ D + 1).
    etransitivity; [apply (Zdigits2_mono _ m2); lia|done].
  - lia.
Qed.

Lemma Zdigits2_iter_xO (p d : positive) :
  Zdigits2 (Z.pos (Pos.iter xO p d)) = Zdigits2 (Z.pos p) + Z.pos d.
Proof.
  rewrite <- (Zdigits2_shiftl (Z.pos p) (Z.pos d)) by lia. f_equal.
  cbn [Z.shiftl]. by apply Pos.iter_swap_gen.
Qed.

Lemma float64_of_int_plain (d : Z) :
  0 ≤ d ≤ maxDuration → plain 64 (-52) 126 (float64_of_int d).
Proof.
  intros [Hd0 Hd]. unfold float64_of_int, binary_normalize.
  destruct d as [|p|p]; [by left| |lia].
  assert (Hp : 1 ≤ Zdigits2 (Z.pos p) ≤ 63).
  { rewrite Zdigits2_log2 by lia. pose proof (Z.log2_nonneg (Z.pos p)).
    assert (Z.log2 (Z.pos p) < 63); [|lia].
    apply Z.log2_lt_pow2; [lia|]. unfold maxDuration in Hd. lia. }
  unfold binary_round, shl_align.
  change (Z.pos (digits2_pos p)) with (Zdigits2 (Z.pos p)).
  unfold fexp, emin.
  destruct (Z.max _ _ - 0) as [|k|k] eqn:Ek.
  - destruct (binary_round_aux_finite false (Z.pos p) 0 loc_Exact 63 0)
      as [->|(m' & e' & -> & ? & ?)]; try lia; [by left|].
    right. eexists _, _. split; [done|]. lia.
  - destruct (binary_round_aux_finite false (Z.pos p) 0 loc_Exact 63 0)
      as [->|(m' & e' & -> & ? & ?)]; try lia; [by left|].
    right. eexists _, _. split; [done|]. lia.
  - pose proof (Zdigits2_iter_xO p k) as Hk.
    destruct (binary_round_aux_finite false (Z.pos (Pos.iter xO p k))
                (Z.max (Zdigits2 (Z.pos p) + 0 - 53) (3 - 1024 - 53)) loc_Exact 63 0)
      as [->|(m' & e' & -> & ? & ?)]; try lia; [by left|].
    right. eexists _, _. split; [done|]. lia.
Qed.

Lemma latency_ms_plain (d : Z) :
  0 ≤ d ≤ maxDuration → plain 170 (-124) 497 (latency_ms d).
Proof.
  intros Hd. unfold latency_ms, float64_div.
  change (float64_of_int Millisecond) with (S754_finite false 8589934592000000 (-33)).
  destruct (float64_of_int_plain d Hd) as [->|(m1 & e1 & -> & Hm1 & He1)]; [by left|].
  unfold SFdiv, SFdiv_core_binary.
  change (Zdigits2 (Z.pos 8589934592000000)) with 53.
  change (Z.pos (digits2_pos m1)) with (Zdigits2 (Z.pos m1)) in Hm1.
  pose proof (Zdigits2_log2 (Z.pos m1) ltac:(lia)) as Hd1.
  pose proof (Z.log2_nonneg (Z.pos m1)) as Hl1.
  set (d1 := Zdigits2 (Z.pos m1)) in *.
  set (e' := Z.min _ _).
  assert (He' : e1 - 72 ≤ e' ≤ e1 + 33) by (unfold e', fexp, emin; lia).
  set (m' := match e1 - -33 - e' with Z0 => Z.pos m1 | Z.pos _ => _ | Z.neg _ => 0 end).
  assert (Hm' : 0 ≤ m' ∧ Zdigits2 m' ≤ d1 + 105).
  { unfold m'. destruct (e1 - -33 - e') as [|k|k] eqn:Ek; [fold d1; lia| |cbn; lia].
    rewrite Zdigits2_shiftl by lia. fold d1. split; [|lia].
    rewrite Z.shiftl_mul_pow2 by lia. apply Z.mul_nonneg_nonneg; [lia|].
    apply Z.pow_nonneg. lia. }
  pose proof (Z.div_eucl_eq m' 8589934592000000 ltac:(lia)) as Hq.
  pose proof (Z.mod_pos_bound m' 8589934592000000 ltac:(lia)) as Hr.
  unfold Z.modulo in Hr.
  destruct (Z.div_eucl m' 8589934592000000) as [q r].
  assert (Hq' : 0 ≤ q ≤ m') by nia.
  destruct (binary_round_aux_finite (xorb false false) q e'
              (new_location 8589934592000000 r) 169 159)
    as [->|(m2 & e2 & -> & ? & ?)]; try lia; [| by left |].
  - etransitivity; [apply (Zdigits2_mono q m'); lia|lia].
  - right. eexists _, _. split; [done|]. lia.
Qed.

Lemma plain_nonneg_finite D lo hi x : plain D lo hi x → nonneg_finite x.
Proof. intros [->|(m & e & -> & _)]; [by left|right; eauto]. Qed.

Lemma scaled_round_nearest (m : positive) (e : Z) :
  0 ≤ scaled_round m e ∧ nearest4 (S754_finite false m e) (scaled_round m e).
Proof.
  unfold nearest4, scaled_round. destruct (Z.leb_spec 0 e) as [He|He].
  - split; [|done]. apply Z.mul_nonneg_nonneg; [|lia].
    apply Z.mul_nonneg_nonneg; [lia|]. by apply Z.pow_nonneg.
  - assert (Hden : 0 < 2 ^ (- e)) by (apply Z.pow_pos_nonneg; lia).
    set (den := 2 ^ (- e)) in *. set (num := Z.pos m * 10000).
    pose proof (Z.div_mod num den ltac:(lia)) as Hdm.
    pose proof (Z.mod_pos_bound num den Hden) as Hr.
    assert (0 ≤ num / den) by (apply Z.div_pos; lia).
    destruct (Z.compare_spec (2 * (num mod den)) den) as [Hc|Hc|Hc];
      [destruct (Z.even (num / den))|..]; split; try lia; nia.
Qed.

Lemma is_digit_digit (d : Z) : 0 ≤ d ≤ 9 → is_digit (digit d) = true.
Proof.
  intros Hd.
  assert (d = 0 ∨ d = 1 ∨ d = 2 ∨ d = 3 ∨ d = 4 ∨ d = 5 ∨ d = 6 ∨ d = 7 ∨ d = 8 ∨ d = 9)
    as Hc by lia.
  by repeat destruct Hc as [->|Hc]; [..|subst d].
Qed.

Lemma value_digit (d : Z) : 0 ≤ d ≤ 9 → Z.of_nat (nat_of_ascii (digit d)) - 48 = d.
Proof.
  intros Hd.
  assert (d = 0 ∨ d = 1 ∨ d = 2 ∨ d = 3 ∨ d = 4 ∨ d = 5 ∨ d = 6 ∨ d = 7 ∨ d = 8 ∨ d = 9)
    as Hc by lia.
  by repeat destruct Hc as [->|Hc]; [..|subst d].
Qed.

Lemma mod10_range (k : Z) : 0 ≤ k mod 10 ≤ 9.
Proof. pose proof (Z.mod_pos_bound k 10). lia. Qed.

Lemma decimal_go_digits (fuel : nat) (n : Z) (acc : string) :
  0 ≤ n → all_digits acc = true → all_digits (decimal_go fuel n acc) = true.
Proof.
  revert n acc. induction fuel as [|fuel IH]; intros n acc Hn Hacc; [done|].
  cbn [decimal_go].
  assert (all_digits (String (digit (n mod 10)) acc) = true) as Hacc'.
  { cbn. by rewrite is_digit_digit, Hacc by apply mod10_range. }
  destruct (n <? 10); [done|]. apply IH; [|done]. apply Z.div_pos; lia.
Qed.

Lemma decimal_go_length (fuel : nat) (n : Z) (acc : string) :
  (String.length acc ≤ String.length (decimal_go fuel n acc))%nat ∧
  (fuel ≠ O → String.length acc < String.length (decimal_go fuel n acc))%nat.
Proof.
  revert n acc. induction fuel as [|fuel IH]; intros n acc; [done|].
  cbn [decimal_go]. destruct (n <? 10); [cbn; lia|].
  destruct (IH (n / 10) (String (digit (n mod 10)) acc)) as [IH1 _].
  cbn in IH1. lia.
Qed.

Lemma decimal_go_number (fuel : nat) (n v : Z) (acc : string) :
  0 ≤ n < 2 ^ Z.of_nat fuel →
  ∃ k, number_from v (decimal_go fuel n acc) = number_from (v * 10 ^ k + n) acc ∧ 0 ≤ k.
Proof.
  revert n v acc. induction fuel as [|fuel IH]; intros n v acc Hn.
  - exists 0. cbn in *. split; [|done]. f_equal. lia.
  - cbn [decimal_go]. destruct (Z.ltb_spec n 10) as [H10|H10].
    + exists 1. split; [|done]. cbn [number_from].
      rewrite Z.mod_small, value_digit by lia. f_equal. lia.
    + destruct (IH (n / 10) v (String (digit (n mod 10)) acc)) as (k & -> & Hk).
      { split; [apply Z.div_pos; lia|]. apply Z.div_lt_upper_bound; [lia|].
        rewrite Nat2Z.inj_succ, Z.pow_succ_r in Hn by lia. lia. }
      exists (k + 1). split; [|lia]. cbn [number_from].
      rewrite value_digit by apply mod10_range. f_equal.
      rewrite Z.pow_add_r by lia. pose proof (Z.div_mod n 10 ltac:(lia)). lia.
Qed.

Lemma decimal_spec (n : Z) :
  0 ≤ n → decimal n ≠ "" ∧ all_digits (decimal n) = true ∧ number (decimal n) = n.
Proof.
  intros Hn. unfold decimal, number. split_and!.
  - destruct (decimal_go_length (S (Z.to_nat (Z.log2 n))) n "") as [_ H].
    intros E. rewrite E in H. cbn in H. lia.
  - by apply decimal_go_digits.
  - destruct (decimal_go_number (S (Z.to_nat (Z.log2 n))) n 0 "") as (k & -> & _);
      [|cbn; lia].
    split; [done|]. rewrite Nat2Z.inj_succ, Z2Nat.id by apply Z.log2_nonneg.
    destruct (decide (n = 0)) as [->|]; [done|]. apply Z.log2_spec. lia.
Qed.

Lemma frac4_spec (n : Z) :
  0 ≤ n →
  String.length (frac4 n) = 4%nat ∧ all_digits (frac4 n) = true ∧
  number (frac4 n) = n mod 10000.
Proof.
  intros Hn. unfold frac4, number. cbn [String.length all_digits number_from].
  rewrite !is_digit_digit, !value_digit by apply mod10_range. split_and!; try done.
  assert (n / 100 = n / 10 / 10) as E2 by (by rewrite Z.div_div by lia).
  assert (n / 1000 = n / 100 / 10) as E3 by (by rewrite Z.div_div by lia).
  assert (n / 10000 = n / 1000 / 10) as E4 by (by rewrite Z.div_div by lia).
  pose proof (Z.div_mod n 10 ltac:(lia)).
  pose proof (Z.div_mod (n / 10) 10 ltac:(lia)).
  pose proof (Z.div_mod (n / 100) 10 ltac:(lia)).
  pose proof (Z.div_mod (n / 1000) 10 ltac:(lia)).
  pose proof (Z.div_mod n 10000 ltac:(lia)).
  lia.
Qed.

Lemma append_length (a b : string) :
  String.length (a +:+ b) = (String.length a + String.length b)%nat.
Proof.
  induction a as [|c a IH]; [done|].
  change (S (String.length (a +:+ b)) = S (String.length a + String.length b)).
  by rewrite IH.
Qed.

Lemma append_assoc (a b c : string) : (a +:+ b) +:+ c = a +:+ b +:+ c.
Proof.
  induction a as [|x a IH]; [done|].
  change (String x ((a +:+ b) +:+ c) = String x (a +:+ b +:+ c)). by rewrite IH.
Qed.

Lemma fixed4_spec (n : Z) :
  0 ≤ n →
  ∃ ip fp,
    pad_left 6 (fixed4 false n) +:+ " ms" = ip +:+ "." +:+ fp +:+ " ms" ∧
    ip ≠ "" ∧ all_digits ip = true ∧ all_digits fp = true ∧
    String.length fp = 4%nat ∧ number ip * 10000 + number fp = n.
Proof.
  intros Hn. exists (decimal (n / 10000)), (frac4 n).
  destruct (decimal_spec (n / 10000)) as (Hne & Hdig & Hnum); [apply Z.div_pos; lia|].
  destruct (frac4_spec n Hn) as (Hlen & Hdig' & Hnum').
  split_and!; try done.
  - unfold fixed4, pad_left. change ("" +:+ ?s) with s.
    rewrite !append_length, Hlen. change (String.length ".") with 1%nat.
    destruct (decimal (n / 10000)) as [|c ip]; [done|].
    change (String.length (String c ip)) with (S (String.length ip)).
    replace (6 - _)%nat with O by lia. change (blanks 0 +:+ ?s) with s.
    by rewrite !append_assoc.
  - rewrite Hnum, Hnum'. pose proof (Z.div_mod n 10000 ltac:(lia)). lia.
Qed.

(** The latency field of a non-negative finite latency: a non-empty run of
    digits, a point, exactly four digits and the unit; the number shown is
    the latency rounded to four decimals. *)
Lemma Sprintf_latency_spec (x : spec_float) :
  nonneg_finite x →
  ∃ n ip fp,
    0 ≤ n ∧ nearest4 x n ∧
    Sprintf_latency x = ip +:+ "." +:+ fp +:+ " ms" ∧
    ip ≠ "" ∧ all_digits ip = true ∧ all_digits fp = true ∧
    String.length fp = 4%nat ∧ number ip * 10000 + number fp = n.
Proof.
  unfold Sprintf_latency. intros [->|(m & e & ->)]; cbn [format_f4].
  - destruct (fixed4_spec 0) as (ip & fp & ? & ? & ? & ? & ? & ?); [done|].
    exists 0, ip, fp. by split_and!.
  - destruct (scaled_round_nearest m e) as [Hn Hnear].
    destruct (fixed4_spec _ Hn) as (ip & fp & ? & ? & ? & ? & ? & ?).
    exists (scaled_round m e), ip, fp. by split_and!.
Qed.

(** ** The value float64 arithmetic computes *)

Lemma shr_1_half (mrs : shr_record) :
  0 ≤ shr_m mrs → shr_m (shr_1 mrs) = shr_m mrs / 2.
Proof.
  destruct mrs as [m rb sb]. cbn [shr_m]. intros Hm. rewrite <- Z.div2_div.
  by destruct m as [|[p|p|]|p]; try lia.
Qed.

Lemma iter_shr_1_div (k : positive) (mrs : shr_record) :
  0 ≤ shr_m mrs →
  shr_m (SpecFloat.iter_pos shr_1 k mrs) = shr_m mrs / 2 ^ Z.pos k.
Proof.
  revert mrs. induction k as [k IH|k IH|]; intros mrs Hm; cbn [SpecFloat.iter_pos].
  - assert (H1 : 0 ≤ shr_m (shr_1 mrs)) by (rewrite shr_1_half by done; apply Z.div_pos; lia).
    assert (H2 : 0 ≤ shr_m (SpecFloat.iter_pos shr_1 k (shr_1 mrs)))
      by (rewrite IH by done; apply Z.div_pos; lia).
    rewrite IH, IH, shr_1_half by done. rewrite !Z.div_div by lia.
    f_equal. replace (Z.pos k~1) with (1 + Z.pos k + Z.pos k) by lia.
    rewrite !Z.pow_add_r by lia. change (2 ^ 1) with 2. lia.
  - assert (H2 : 0 ≤ shr_m (SpecFloat.iter_pos shr_1 k mrs))
      by (rewrite IH by done; apply Z.div_pos; lia).
    rewrite IH, IH by done. rewrite Z.div_div by lia. f_equal.
    replace (Z.pos k~0) with (Z.pos k + Z.pos k) by lia.
    by rewrite Z.pow_add_r by lia.
  - rewrite shr_1_half by done. done.
Qed.

Lemma shr_value (m e n : Z) (lx : location) :
  0 ≤ m → 0 ≤ n →
  shr_m (shr (shr_record_of_loc m lx) e n).1 = m / 2 ^ n ∧
  (shr (shr_record_of_loc m lx) e n).2 = e + n.
Proof.
  intros Hm Hn. destruct n as [|k|k]; [| |lia]; cbn [shr fst snd].
  - rewrite shr_m_of_loc, Z.div_1_r. lia.
  - split; [|done]. rewrite iter_shr_1_div by (rewrite shr_m_of_loc; lia).
    by rewrite shr_m_of_loc.
Qed.

Lemma Zdigits2_53 (m : Z) : 2 ^ 52 ≤ m < 2 ^ 53 → Zdigits2 m = 53.
Proof.
  intros Hm. rewrite Zdigits2_log2 by lia.
  rewrite (Z.log2_unique m 52); lia.
Qed.

(** Rounding a mantissa of at least 53 bits: the result is finite, has a
    mantissa of exactly 53 bits and lies within two units of its last
    place. *)
Lemma binary_round_aux_value (s : bool) (m e : Z) (lx : location) :
  2 ^ 52 ≤ m → -1021 ≤ e → Z.log2 m + e ≤ 1022 →
  ∃ c e'',
    binary_round_aux 53 1024 s m e lx = S754_finite s c e'' ∧
    e ≤ e'' ≤ e + Z.log2 m - 51 ∧ 2 ^ 52 ≤ Z.pos c < 2 ^ 53 ∧
    (Z.pos c - 1) * 2 ^ (e'' - e) ≤ m < (Z.pos c + 2) * 2 ^ (e'' - e).
Proof.
  intros Hm He Hhi. unfold binary_round_aux, shr_fexp.
  pose proof (Z.log2_spec m ltac:(lia)) as Hlog.
  pose proof (Z.log2_nonneg m) as Hlog0.
  assert (Hl52 : 52 ≤ Z.log2 m) by (apply Z.log2_le_pow2; lia).
  rewrite (Zdigits2_log2 m) by lia.
  set (k1 := fexp 53 1024 (Z.log2 m + 1 + e) - e).
  assert (Hk1 : k1 = Z.log2 m - 52) by (unfold k1, fexp, emin; lia).
  destruct (shr_value m e k1 lx) as [Ha He1]; [lia..|].
  destruct (shr (shr_record_of_loc m lx) e k1) as [mrs1 e1]. cbn [fst snd] in Ha, He1.
  pose proof (round_nearest_even_range (shr_m mrs1) (loc_of_shr_record mrs1)) as Hb.
  set (b := round_nearest_even _ _) in *. rewrite Ha in Hb.
  assert (Hp1 : 0 < 2 ^ k1) by (apply Z.pow_pos_nonneg; lia).
  assert (Hsplit : 2 ^ Z.log2 m = 2 ^ 52 * 2 ^ k1)
    by (rewrite <- Z.pow_add_r by lia; f_equal; lia).
  assert (Hsucc : 2 ^ Z.succ (Z.log2 m) = 2 ^ 53 * 2 ^ k1)
    by (rewrite <- Z.pow_add_r by lia; f_equal; lia).
  pose proof (Z.div_mod m (2 ^ k1) ltac:(lia)) as Hdm.
  pose proof (Z.mod_pos_bound m (2 ^ k1) Hp1) as Hmod.
  set (a := m / 2 ^ k1) in *.
  assert (Ha52 : 2 ^ 52 ≤ a < 2 ^ 53) by nia.
  destruct (decide (b = 2 ^ 53)) as [Hb53|Hb53].
  - assert (Hdb : Zdigits2 b = 54).
    { rewrite Hb53, Zdigits2_log2 by lia. by rewrite Z.log2_pow2 by lia. }
    rewrite Hdb.
    destruct (shr_value b e1 (fexp 53 1024 (54 + e1) - e1) loc_Exact) as [Hc He2];
      [lia|unfold fexp, emin; lia|].
    destruct (shr (shr_record_of_loc b loc_Exact) e1 _) as [mrs2 e2].
    cbn [fst snd] in Hc, He2.
    replace (fexp 53 1024 (54 + e1) - e1) with 1 in * by (unfold fexp, emin; lia).
    rewrite Hc, Hb53. change (2 ^ 53 / 2 ^ 1) with (Z.pos (2 ^ 52)).
    destruct (Z.leb_spec e2 (1024 - 53)); [|lia].
    eexists _, _. split; [done|]. replace (e2 - e) with (k1 + 1) by lia.
    rewrite Z.pow_add_r by lia. change (2 ^ 1) with 2.
    split_and!; try lia; nia.
  - assert (Hdb : Zdigits2 b = 53) by (apply Zdigits2_53; lia).
    rewrite Hdb.
    destruct (shr_value b e1 (fexp 53 1024 (53 + e1) - e1) loc_Exact) as [Hc He2];
      [lia|unfold fexp, emin; lia|].
    destruct (shr (shr_record_of_loc b loc_Exact) e1 _) as [mrs2 e2].
    cbn [fst snd] in Hc, He2.
    replace (fexp 53 1024 (53 + e1) - e1) with 0 in * by (unfold fexp, emin; lia).
    rewrite Hc, Z.div_1_r.
    destruct b as [|pb|pb]; [lia| |lia].
    destruct (Z.leb_spec e2 (1024 - 53)); [|lia].
    eexists _, _. split; [done|]. replace (e2 - e) with k1 by lia.
    split_and!; try lia; nia.
Qed.

Lemma Qpow2_pos (e : Z) : (0 < 2 ^ e)%Q.
Proof. by apply Qpower_0_lt. Qed.

Lemma Qpow2_add (a b : Z) : (2 ^ (a + b) == 2 ^ a * 2 ^ b)%Q.
Proof. by apply Qpower_plus. Qed.

Lemma inject_pow2 (k : Z) : 0 ≤ k → (inject_Z (2 ^ k) == 2 ^ k)%Q.
Proof. intros Hk. by rewrite Zpower_Qpower. Qed.

(** The same in rationals: the rounded value is within two units of its
    last place of the value that was rounded. *)
Lemma binary_round_aux_Q (s : bool) (m e : Z) (lx : location) :
  2 ^ 52 ≤ m → -1021 ≤ e → Z.log2 m + e ≤ 1022 →
  ∃ c e'',
    binary_round_aux 53 1024 s m e lx = S754_finite s c e'' ∧
    e ≤ e'' ≤ e + Z.log2 m - 51 ∧ 2 ^ 52 ≤ Z.pos c < 2 ^ 53 ∧
    ((inject_Z (Z.pos c) - 1) * 2 ^ e'' <= inject_Z m * 2 ^ e)%Q ∧
    (inject_Z m * 2 ^ e < (inject_Z (Z.pos c) + 2) * 2 ^ e'')%Q.
Proof.
  intros Hm He Hhi.
  destruct (binary_round_aux_value s m e lx Hm He Hhi) as (c & e'' & Heq & He'' & Hc & Hlo & Hup).
  exists c, e''. split_and!; try done; try lia.
  - assert (Hlo' : Z.pos c * 2 ^ (e'' - e) ≤ m + 2 ^ (e'' - e)) by lia.
    rewrite Zle_Qle, inject_Z_plus, inject_Z_mult, inject_pow2 in Hlo' by lia.
    replace e'' with ((e'' - e) + e) at 1 by lia. rewrite Qpow2_add.
    pose proof (Qpow2_pos e). pose proof (Qpow2_pos (e'' - e)). nra.
  - assert (Hup' : m < Z.pos c * 2 ^ (e'' - e) + 2 * 2 ^ (e'' - e)) by lia.
    rewrite Zlt_Qlt, inject_Z_plus, !inject_Z_mult, inject_pow2 in Hup' by lia.
    replace e'' with ((e'' - e) + e) at 1 by lia. rewrite Qpow2_add.
    pose proof (Qpow2_pos e). pose proof (Qpow2_pos (e'' - e)).
    change (inject_Z 2) with 2%Q in Hup'. nra.
Qed.
Lemma Qpow2_ge_1 (k : Z) : 0 ≤ k → (1 <= 2 ^ k)%Q.
Proof.
  intros Hk. rewrite <- inject_pow2 by done. change 1%Q with (inject_Z 1).
  rewrite <- Zle_Qle. pose proof (Z.pow_pos_nonneg 2 k). lia.
Qed.

Lemma Zpos_iter_xO (p k : positive) : Z.pos (Pos.iter xO p k) = Z.pos p * 2 ^ Z.pos k.
Proof.
  rewrite <- Z.shiftl_mul_pow2 by lia. cbn [Z.shiftl]. by apply Pos.iter_swap_gen.
Qed.

(** [float64(d)] for a positive duration: a 53-bit mantissa, within two
    units of the last place of [d]. *)
Lemma float64_of_int_Q (d : Z) :
  0 < d ≤ maxDuration →
  ∃ m e,
    float64_of_int d = S754_finite false m e ∧
    2 ^ 52 ≤ Z.pos m < 2 ^ 53 ∧ -52 ≤ e ≤ 11 ∧
    ((inject_Z (Z.pos m) - 1) * 2 ^ e <= inject_Z d)%Q ∧
    (inject_Z d < (inject_Z (Z.pos m) + 2) * 2 ^ e)%Q.
Proof.
  intros [Hd0 Hd]. unfold float64_of_int, binary_normalize.
  destruct d as [|p|p]; [lia| |lia].
  pose proof (Z.log2_spec (Z.pos p) ltac:(lia)) as Hlog.
  pose proof (Z.log2_nonneg (Z.pos p)) as Hlog0.
  assert (Hl63 : Z.log2 (Z.pos p) < 63)
    by (apply Z.log2_lt_pow2; [lia|]; unfold maxDuration in Hd; lia).
  unfold binary_round, shl_align.
  change (Z.pos (digits2_pos p)) with (Zdigits2 (Z.pos p)).
  rewrite Zdigits2_log2 by lia. unfold fexp at 1, emin.
  destruct (Z.max _ _ - 0) as [|k|k] eqn:Ek.
  - assert (Hl : Z.log2 (Z.pos p) = 52) by lia.
    assert (2 ^ 52 ≤ Z.pos p) by (rewrite <- Hl; lia).
    destruct (binary_round_aux_Q false (Z.pos p) 0 loc_Exact)
      as (c & e'' & -> & ? & ? & Hlo & Hup); try lia.
    exists c, e''. split_and!; try done; try lia.
    + by rewrite Qmult_1_r in Hlo.
    + by rewrite Qmult_1_r in Hup.
  - assert (Hl : 52 ≤ Z.log2 (Z.pos p)) by lia.
    assert (2 ^ 52 ≤ Z.pos p).
    { etransitivity; [|apply Hlog]. apply Z.pow_le_mono_r; lia. }
    destruct (binary_round_aux_Q false (Z.pos p) 0 loc_Exact)
      as (c & e'' & -> & ? & ? & Hlo & Hup); try lia.
    exists c, e''. split_and!; try done; try lia.
    + by rewrite Qmult_1_r in Hlo.
    + by rewrite Qmult_1_r in Hup.
  - assert (Hk : Z.pos k = 52 - Z.log2 (Z.pos p)) by lia.
    pose proof (Zpos_iter_xO p k) as Hmz.
    assert (Hp2 : 2 ^ 52 = 2 ^ Z.log2 (Z.pos p) * 2 ^ Z.pos k)
      by (rewrite <- Z.pow_add_r by lia; f_equal; lia).
    assert (Hp3 : 2 ^ 53 = 2 ^ Z.succ (Z.log2 (Z.pos p)) * 2 ^ Z.pos k)
      by (rewrite <- Z.pow_add_r by lia; f_equal; lia).
    assert (Hpk : 0 < 2 ^ Z.pos k) by (apply Z.pow_pos_nonneg; lia).
    assert (Hmz52 : 2 ^ 52 ≤ Z.pos (Pos.iter xO p k) < 2 ^ 53) by nia.
    assert (Hlmz : Z.log2 (Z.pos (Pos.iter xO p k)) = 52)
      by (apply Z.log2_unique; lia).
    replace (fexp 53 1024 (Z.log2 (Z.pos p) + 1 + 0)) with (- Z.pos k)
      by (unfold fexp, emin; lia).
    destruct (binary_round_aux_Q false (Z.pos (Pos.iter xO p k)) (- Z.pos k) loc_Exact)
      as (c & e'' & -> & ? & ? & Hlo & Hup); try lia.
    exists c, e''. split_and!; try done; try lia.
    + rewrite Hmz, inject_Z_mult, inject_pow2 in Hlo by lia.
      pose proof (Qpow2_add (Z.pos k) (- Z.pos k)) as Hone.
      replace (Z.pos k + - Z.pos k) with 0 in Hone by lia.
      change (2 ^ 0)%Q with 1%Q in Hone.
      rewrite <- Qmult_assoc, <- Hone, Qmult_1_r in Hlo. done.
    + rewrite Hmz, inject_Z_mult, inject_pow2 in Hup by lia.
      pose proof (Qpow2_add (Z.pos k) (- Z.pos k)) as Hone.
      replace (Z.pos k + - Z.pos k) with 0 in Hone by lia.
      change (2 ^ 0)%Q with 1%Q in Hone.
      rewrite <- Qmult_assoc, <- Hone, Qmult_1_r in Hup. done.
Qed.
(** The latency of a positive duration, against the exact quotient: the
    float64 differs from [d / 10^6] by less than [d / 10^6 / 2^48]. *)
Lemma latency_ms_Q (d : Z) :
  0 < d ≤ maxDuration →
  ∃ c e,
    latency_ms d = S754_finite false c e ∧
    (Qabs (F2Q (latency_ms d) * 1000000 - inject_Z d) <= inject_Z d * (1 # 2 ^ 48))%Q.
Proof.
  intros Hd. unfold latency_ms, float64_div.
  change (float64_of_int Millisecond) with (S754_finite false 8589934592000000 (-33)).
  destruct (float64_of_int_Q d Hd) as (m1 & e1 & -> & Hm1 & He1 & Hlo1 & Hup1).
  unfold SFdiv, SFdiv_core_binary.
  change (Zdigits2 (Z.pos 8589934592000000)) with 53.
  rewrite (Zdigits2_53 (Z.pos m1)) by done.
  replace (Z.min (fexp 53 1024 (53 + e1 - (53 + -33))) (e1 - -33)) with (e1 - 20)
    by (unfold fexp, emin; lia).
  replace (e1 - -33 - (e1 - 20)) with 53 by lia.
  rewrite Z.shiftl_mul_pow2 by lia.
  pose proof (Z.div_eucl_eq (Z.pos m1 * 2 ^ 53) 8589934592000000 ltac:(lia)) as Hq.
  pose proof (Z.mod_pos_bound (Z.pos m1 * 2 ^ 53) 8589934592000000 ltac:(lia)) as Hr.
  unfold Z.modulo in Hr.
  destruct (Z.div_eucl (Z.pos m1 * 2 ^ 53) 8589934592000000) as [q r].
  assert (Hq52 : 2 ^ 52 ≤ q < 2 ^ 106) by lia.
  assert (Hlq : Z.log2 q < 106) by (apply Z.log2_lt_pow2; lia).
  destruct (binary_round_aux_Q (xorb false false) q (e1 - 20)
              (new_location 8589934592000000 r))
    as (c & e'' & -> & He'' & Hc & Hlo & Hup); try lia.
  exists c, e''. split; [done|]. cbn [F2Q xorb].
  (* the quotient in rationals *)
  assert (HqM : (inject_Z q * 2 ^ (e1 - 20) * 1000000
                 <= inject_Z (Z.pos m1) * 2 ^ e1)%Q ∧
                (inject_Z (Z.pos m1) * 2 ^ e1
                 < (inject_Z q + 1) * 2 ^ (e1 - 20) * 1000000)%Q).
  { assert (Hq1 : 8589934592000000 * q ≤ Z.pos m1 * 2 ^ 53) by lia.
    assert (Hq2 : Z.pos m1 * 2 ^ 53 < 8589934592000000 * q + 8589934592000000) by lia.
    rewrite Zle_Qle, !inject_Z_mult in Hq1.
    rewrite Zlt_Qlt, inject_Z_plus, !inject_Z_mult in Hq2.
    pose proof (Qpow2_add (e1 - 20) (-33)) as Ha.
    pose proof (Qpow2_add (e1 - 53) 53) as Hb.
    replace (e1 - 20 + -33) with (e1 - 53) in Ha by lia.
    replace (e1 - 53 + 53) with e1 in Hb by lia.
    pose proof (Qpow2_pos (e1 - 53)) as Hpos.
    change (inject_Z (2 ^ 53)) with (2 ^ 53)%Q in *.
    assert (Hm2 : (inject_Z 8589934592000000 * 2 ^ (-33) == 1000000)%Q) by reflexivity.
    set (Q1 := inject_Z q) in *. set (M1 := inject_Z (Z.pos m1)) in *.
    set (A := (2 ^ (e1 - 20))%Q) in *. set (B := (2 ^ (e1 - 53))%Q) in *.
    set (E1 := (2 ^ e1)%Q) in *.
    set (T33 := (2 ^ (-33))%Q) in *. set (T53 := (2 ^ 53)%Q) in *.
    set (MM := inject_Z 8589934592000000) in *.
    split.
    - assert (Hg : (Q1 * A * 1000000 == (MM * Q1) * B)%Q)
        by (rewrite <- Hm2, Ha; ring).
      rewrite Hg, Hb. nra.
    - assert (Hg : ((Q1 + 1) * A * 1000000 == (MM * Q1 + MM) * B)%Q)
        by (rewrite <- Hm2, Ha; ring).
      rewrite Hg, Hb. nra. }
  destruct HqM as [HqL HqU].
  pose proof (Qpow2_pos e'') as HE''. pose proof (Qpow2_pos (e1 - 20)) as HE'.
  pose proof (Qpow2_pos e1) as HE1.
  assert (Hmono : (2 ^ (e1 - 20) <= 2 ^ e'')%Q).
  { replace e'' with ((e'' - (e1 - 20)) + (e1 - 20)) by lia. rewrite Qpow2_add.
    pose proof (Qpow2_ge_1 (e'' - (e1 - 20)) ltac:(lia)). nra. }
  assert (Hc52 : (inject_Z (2 ^ 52) <= inject_Z (Z.pos c))%Q) by (rewrite <- Zle_Qle; lia).
  assert (Hm52 : (inject_Z (2 ^ 52) <= inject_Z (Z.pos m1))%Q) by (rewrite <- Zle_Qle; lia).
  change (inject_Z (2 ^ 52)) with (4503599627370496 # 1)%Q in *.
  assert (Hd0 : (0 < inject_Z d)%Q) by (change 0%Q with (inject_Z 0); rewrite <- Zlt_Qlt; lia).
  set (C := inject_Z (Z.pos c)) in *. set (M1 := inject_Z (Z.pos m1)) in *.
  set (Q1 := inject_Z q) in *. set (D := inject_Z d) in *.
  set (E'' := (2 ^ e'')%Q) in *. set (E' := (2 ^ (e1 - 20))%Q) in *.
  set (E1 := (2 ^ e1)%Q) in *.
  set (X := (1 * C * E'' * 1000000)%Q).
  set (F := (M1 * E1)%Q) in *.
  (* float64(d) against d, and the quotient against float64(d) *)
  assert (HP1 : (0 <= (M1 - (4503599627370496 # 1)) * E1)%Q)
    by (apply Qmult_le_0_compat; lra).
  assert (HP2 : (0 <= (C - (4503599627370496 # 1)) * (E'' * 1000000))%Q)
    by (apply Qmult_le_0_compat; lra).
  assert (HP3 : (0 <= (E'' - E') * 1000000)%Q) by lra.
  assert (HA : (F * (1 - (1 # 4503599627370496)) <= D ∧
                D <= F * (1 + (1 # 2251799813685248)))%Q)
    by (unfold F; clear - HP1 Hlo1 Hup1; split; lra).
  assert (HB : (X * (1 - (1 # 4503599627370496)) <= F ∧
                F <= X * (1 + (3 # 4503599627370496)))%Q).
  { assert (HB1 : ((C - 1) * E'' * 1000000 <= F)%Q).
    { apply Qle_trans with (Q1 * E' * 1000000)%Q; [|exact HqL].
      clear - Hlo. lra. }
    assert (HB2 : (F <= (C + 3) * E'' * 1000000)%Q).
    { apply Qle_trans with ((Q1 + 1) * E' * 1000000)%Q; [lra|].
      clear - Hup HP3. lra. }
    unfold X. clear - HB1 HB2 HP2. split; lra. }
  destruct HA as [HA1 HA2], HB as [HB1 HB2].
  assert (HX0 : (0 <= X)%Q) by (unfold X; nra).
  change (1 # 2 ^ 48)%Q with (1 # 281474976710656)%Q.
  apply Qabs_case; intros _; fold X; lra.
Qed.
Lemma inject_Z_sub (a b : Z) : inject_Z (a - b) = (inject_Z a - inject_Z b)%Q.
Proof. unfold Z.sub, Qminus. by rewrite inject_Z_plus, inject_Z_opp. Qed.

Lemma nearest4_Q (x : spec_float) (n : Z) :
  nearest4 x n → (Qabs (inject_Z n - F2Q x * 10000) <= 1 # 2)%Q.
Proof.
  destruct x as [[]|[]| |[] m e]; cbn [nearest4 F2Q]; try done.
  - intros ->. by apply Qabs_case; intros _.
  - destruct (Z.leb_spec 0 e) as [He|He].
    + intros ->. rewrite !inject_Z_mult, inject_pow2 by done.
      change (inject_Z 10000) with 10000%Q. apply Qabs_case; intros _; lra.
    + intros Hn. pose proof (Qpow2_pos e) as HE. pose proof (Qpow2_pos (- e)) as HE'.
      pose proof (Qpow2_add e (- e)) as Hone.
      replace (e + - e) with 0 in Hone by lia. change (2 ^ 0)%Q with 1%Q in Hone.
      assert (Hn1 : 2 * (n * 2 ^ (- e) - Z.pos m * 10000) ≤ 2 ^ (- e)) by lia.
      assert (Hn2 : 2 * (Z.pos m * 10000 - n * 2 ^ (- e)) ≤ 2 ^ (- e)) by lia.
      rewrite Zle_Qle in Hn1, Hn2.
      rewrite !inject_Z_mult, inject_Z_sub, !inject_Z_mult, inject_pow2 in Hn1, Hn2 by lia.
      change (inject_Z 2) with 2%Q in *. change (inject_Z 10000) with 10000%Q in *.
      set (N := inject_Z n) in *. set (M := inject_Z (Z.pos m)) in *.
      set (E := (2 ^ e)%Q) in *. set (E' := (2 ^ (- e))%Q) in *.
      assert (H1 : (2 * (N * E' - M * 10000) * E <= E' * E)%Q) by nra.
      assert (H2 : (2 * (M * 10000 - N * E') * E <= E' * E)%Q) by nra.
      assert (Hr : (N * E' * E == N)%Q) by (rewrite <- Qmult_assoc, (Qmult_comm E' E), <- Hone; ring).
      assert (Hr' : (E' * E == 1)%Q) by (rewrite (Qmult_comm E' E), <- Hone; reflexivity).
      apply Qabs_case; intros _; nra.
Qed.

(** The number the latency field shows, in units of 100 ns, against the
    duration in ns: half a unit of rounding plus the float64 error. *)
Lemma shown_latency (d n : Z) :
  0 ≤ d ≤ maxDuration → nearest4 (latency_ms d) n →
  (Qabs (F2Q (latency_ms d) * 1000000 - inject_Z d) <= inject_Z d * (1 # 2 ^ 48))%Q ∧
  2 ^ 48 * Z.abs (100 * n - d) ≤ 50 * 2 ^ 48 + d.
Proof.
  intros Hd Hn. destruct (decide (d = 0)) as [->|Hd0].
  - change (latency_ms 0) with (S754_zero false) in *. cbn in Hn. subst n. done.
  - destruct (latency_ms_Q d ltac:(lia)) as (c & e & _ & Hclose). split; [done|].
    pose proof (nearest4_Q _ _ Hn) as Hnear.
    assert (HD : (0 <= inject_Z d)%Q) by (change 0%Q with (inject_Z 0); rewrite <- Zle_Qle; lia).
    set (X := F2Q (latency_ms d)) in *.
    change (1 # 2 ^ 48)%Q with (1 # 281474976710656)%Q in Hclose.
    change (2 ^ 48) with 281474976710656.
    assert (Hq : (281474976710656 * Qabs (100 * inject_Z n - inject_Z d)
                  <= 50 * 281474976710656 + inject_Z d)%Q).
    { apply Qabs_Qle_condition in Hclose, Hnear.
      apply Qabs_case; intros _; lra. }
    apply Z.abs_case; [by intros ? ? ->|..].
    + revert Hq. apply Qabs_case; intros Hs Hq.
      * rewrite Zle_Qle, inject_Z_plus, !inject_Z_mult, inject_Z_sub, inject_Z_mult.
        exact Hq.
      * rewrite Zle_Qle, inject_Z_plus, !inject_Z_mult, inject_Z_sub, inject_Z_mult.
        change (inject_Z 100) with 100%Q. change (inject_Z 281474976710656) with 281474976710656%Q.
        change (inject_Z 50) with 50%Q. lra.
    + revert Hq. apply Qabs_case; intros Hs Hq.
      * rewrite Zle_Qle, inject_Z_plus, !inject_Z_mult, inject_Z_opp, inject_Z_sub, inject_Z_mult.
        change (inject_Z 100) with 100%Q. change (inject_Z 281474976710656) with 281474976710656%Q.
        change (inject_Z 50) with 50%Q. lra.
      * rewrite Zle_Qle, inject_Z_plus, !inject_Z_mult, inject_Z_opp, inject_Z_sub, inject_Z_mult.
        change (inject_Z 100) with 100%Q. change (inject_Z 281474976710656) with 281474976710656%Q.
        change (inject_Z 50) with 50%Q. lra.
Qed.

Section Claims.

Context {Ctx : Type}.
Implicit Types (r : Request Ctx) (h : Handler Ctx) (acts : list (Action Ctx)).
Implicit Types (o : ResponseObserver) (σ : World) (reqidf : Ctx → Call string).
Implicit Types (l : Logger) (w : ResponseWriter) (name : string).

Lemma named_served_trail l name reqidf h w r :
  named "req_served" (trail l name reqidf h w r) =
  match reqidf (Context r), ending (h r) with
  | Yields reqID, Returns =>
      [served_entry reqID (claimed_status (actions (h r)))
         (mutate (actions (h r)) r)
         (latency_ms (saturate (Z.of_N (spent (actions (h r)))))) name]
  | _, _ => []
  end.
Proof.
  unfold named. rewrite records_trail.
  destruct (reqidf (Context r)); [|done]. by destruct (ending (h r)).
Qed.

Lemma named_start_trail l name reqidf h w r :
  named "req_start" (trail l name reqidf h w r) =
  match reqidf (Context r) with
  | Yields reqID => [start_entry reqID r]
  | Throws _ => []
  end.
Proof.
  unfold named. rewrite records_trail.
  destruct (reqidf (Context r)); [|done]. by destruct (ending (h r)).
Qed.

(** C1. The status field of the req_served record is the first status code
    the wrapped handler set explicitly, or 200 when body bytes came before
    any status, or 200 when the handler wrote nothing ([claimed_status]);
    a call that logs no req_served record (resolver or handler panicked) has
    no such field. *)
Theorem served_status_is_first_set_or_200 l name reqidf h w r σ :
  map (λ e, data e !! "status")
      (named "req_served" (added σ (NewGlogrusWithReqId l name reqidf h w r σ)))
  = match reqidf (Context r), ending (h r) with
    | Yields _, Returns => [Some (VInt (claimed_status (actions (h r))))]
    | _, _ => []
    end.
Proof.
  unfold NewGlogrusWithReqId. rewrite fn_added, named_served_trail.
  destruct (reqidf (Context r)); [|done]. by destruct (ending (h r)).
Qed.

Lemma wired_only_wire w acts (ev : Event) :
  ev ∈ wired w acts → ∃ op, ev = EvWire w op.
Proof.
  unfold wired. rewrite list_elem_of_omap. intros (a & _ & Ha).
  destruct a; naive_solver.
Qed.

Lemma finalized_only_wire o (ev : Event) :
  ev ∈ finalized o → ev = EvWire (underlying o) (WireHeader 200).
Proof.
  unfold finalized. destruct (statusWritten o);
    [by intros ?%elem_of_nil | by intros ?%list_elem_of_singleton].
Qed.

Lemma observe_underlying acts o : underlying (observe acts o) = underlying o.
Proof.
  revert o. induction acts as [|a acts IH]; intros o; [done|].
  cbn. change (underlying (observe acts (observe1 a o)) = underlying o).
  by rewrite IH, observe1_underlying.
Qed.

Ltac absurd_member H :=
  repeat match type of H with
         | _ ∈ _ ++ _ => apply elem_of_app in H as [H|H]
         | _ ∈ _ :: _ => apply elem_of_cons in H as [H|H]; [discriminate H|]
         | _ ∈ [] => by apply elem_of_nil in H
         | _ ∈ wired _ _ => apply wired_only_wire in H as [? H]; discriminate H
         | _ ∈ finalized _ => apply finalized_only_wire in H; discriminate H
         end.

Lemma split_at_marker (x : Event) (l1 l2 pre post : list Event) :
  l1 ++ x :: l2 = pre ++ x :: post → x ∉ l1 → x ∉ l2 → pre = l1 ∧ post = l2.
Proof.
  intros E H1 H2. apply app_inj_pivot in E as [[[? _]|[? _]]|[-> ->]]; [| |done].
  - by destruct H1; apply list_elem_of_In.
  - by destruct H2; apply list_elem_of_In.
Qed.

Lemma named_app msg (a b : list Event) : named msg (a ++ b) = named msg a ++ named msg b.
Proof. unfold named. by rewrite records_app, filter_app. Qed.

Lemma named_wired msg w acts : named msg (wired w acts) = [].
Proof. unfold named. by rewrite records_wired. Qed.

Lemma named_finalized msg o : named msg (finalized o) = [].
Proof. unfold named. by rewrite records_finalized. Qed.

(** C2. Of the events one call adds: wherever the wrapped handler is
    invoked, exactly one req_start record precedes the invocation and none
    follows it; wherever the handler has returned, no req_served record
    precedes the return and exactly one follows it; without a normal return
    there is no req_served record.  The handler is invoked whenever the
    resolver yields, and the totals are one req_start and one req_served
    record at most. *)
Theorem one_start_before_one_served_after l name reqidf h w r σ :
  let evs := added σ (NewGlogrusWithReqId l name reqidf h w r σ) in
  (∀ pre post, evs = pre ++ EvEnter :: post →
     length (named "req_start" pre) = 1%nat ∧ named "req_start" post = [] ∧
     named "req_served" pre = []) ∧
  (∀ pre post, evs = pre ++ EvLeave :: post →
     named "req_served" pre = [] ∧ length (named "req_served" post) = 1%nat) ∧
  (ending (h r) ≠ Returns → (EvLeave ∉ evs) ∧ named "req_served" evs = []) ∧
  (∀ reqID, reqidf (Context r) = Yields reqID →
     EvEnter ∈ evs ∧ (ending (h r) = Returns → EvLeave ∈ evs)) ∧
  (length (named "req_start" evs) =
     match reqidf (Context r) with Yields _ => 1%nat | Throws _ => 0%nat end) ∧
  (length (named "req_served" evs) =
     match reqidf (Context r), ending (h r) with
     | Yields _, Returns => 1%nat
     | _, _ => 0%nat
     end).
Proof.
  cbn zeta. unfold NewGlogrusWithReqId. rewrite fn_added.
  rewrite named_start_trail, named_served_trail.
  unfold trail. destruct (reqidf (Context r)) as [reqID|v].
  - cbn zeta. destruct (ending (h r)) as [|v].
    + split_and!; try done.
      * intros pre post H.
        apply (split_at_marker EvEnter [EvResolve; EvLog l (start_entry reqID r)]) in H
          as [-> ->]; [|intros Hin; absurd_member Hin..].
        split_and!; [done| |done].
        by rewrite !named_app, named_wired, named_finalized.
      * intros pre post H. rewrite app_assoc in H.
        apply split_at_marker in H as [-> ->]; [|intros Hin; absurd_member Hin..].
        by rewrite !named_app, named_wired, named_finalized.
      * intros reqID' _. split; [|intros _]; rewrite !elem_of_app, !elem_of_cons; eauto 8.
    + split_and!; try done.
      * intros pre post H. rewrite app_nil_r in H.
        apply (split_at_marker EvEnter [EvResolve; EvLog l (start_entry reqID r)]) in H
          as [-> ->]; [|intros Hin; absurd_member Hin..].
        split_and!; [done| |done]. by rewrite named_wired.
      * intros pre post H. exfalso.
        assert (Hin : EvLeave ∈ pre ++ EvLeave :: post)
          by (rewrite elem_of_app, elem_of_cons; eauto).
        rewrite <- H in Hin. absurd_member Hin.
      * intros _. split; [intros H; absurd_member H|done].
      * intros reqID' _. split; [|done]. rewrite !elem_of_app, !elem_of_cons; eauto 8.
  - split_and!; try done.
    + intros pre post H. exfalso.
      assert (Hin : EvEnter ∈ pre ++ EvEnter :: post)
        by (rewrite elem_of_app, elem_of_cons; eauto).
      rewrite <- H in Hin. absurd_member Hin.
    + intros pre post H. exfalso.
      assert (Hin : EvLeave ∈ pre ++ EvLeave :: post)
        by (rewrite elem_of_app, elem_of_cons; eauto).
      rewrite <- H in Hin. absurd_member Hin.
    + intros _. split; [intros H; absurd_member H|done].
Qed.

Lemma start_entry_shape (reqID : string) r : start_shape (start_entry reqID r).
Proof.
  unfold start_shape, string_at, start_entry, start_fields; cbn [level message data].
  split_and!; try done; by eexists.
Qed.

Lemma served_entry_shape (reqID : string) (st : Z) r (lat : spec_float) name :
  served_shape (served_entry reqID st r lat name).
Proof.
  unfold served_shape, string_at, int_at, served_entry, served_fields;
    cbn [level message data].
  split_and!; try done; by eexists.
Qed.

(** C3. The records one call logs are, in order, a req_start record with
    exactly the fields req_id, uri, method, remote and, after a normal
    return, a req_served record with exactly the fields req_id, status,
    method, uri, remote, latency, app; both at info level, under these
    event names. *)
Theorem records_have_the_wire_shape l name reqidf h w r σ :
  Forall2 (λ (shape : Entry → Prop) e, shape e)
    match reqidf (Context r), ending (h r) with
    | Yields _, Returns => [start_shape; served_shape]
    | Yields _, Panics _ => [start_shape]
    | Throws _, _ => []
    end
    (records (added σ (NewGlogrusWithReqId l name reqidf h w r σ))).
Proof.
  unfold NewGlogrusWithReqId. rewrite fn_added, records_trail.
  destruct (reqidf (Context r)); [|constructor].
  destruct (ending (h r)).
  - constructor; [apply start_entry_shape|].
    constructor; [apply served_entry_shape|constructor].
  - constructor; [apply start_entry_shape|constructor].
Qed.

(** C4. Once the observer has recorded a status, no call of the handler
    changes it: [WriteHeader], [Write] and any further sequence of actions
    leave the observer as it is (the first status set wins).  The
    finalisation after the handler is a no-op on such an observer; on an
    observer without a status it records 200 and sends one header with code
    200, after which a further finalisation does nothing. *)
Theorem status_is_recorded_at_most_once o σ :
  (statusWritten o = true →
     (∀ code, ∃ σ', WriteHeader o code σ = Normal o σ') ∧
     (∀ buf, ∃ σ', Write o buf σ = Normal o σ') ∧
     (∀ acts r, ∃ r' σ', performAll acts o r σ = Normal (o, r') σ') ∧
     maybeWriteHeader o σ = Normal o σ) ∧
  (statusWritten o = false →
     (∀ code, ∃ σ', WriteHeader o code σ = Normal (mkObserver (underlying o) true code) σ') ∧
     (∀ buf, ∃ σ', Write o buf σ = Normal (mkObserver (underlying o) true 200) σ') ∧
     let o' := mkObserver (underlying o) true 200 in
     maybeWriteHeader o σ =
       Normal o' (mkWorld (clock σ)
                    (history σ ++ [EvWire (underlying o) (WireHeader 200)])) ∧
     ∀ σ', maybeWriteHeader o' σ' = Normal o' σ').
Proof.
  split; intros E.
  - split_and!.
    + intros code. unfold WriteHeader. run. rewrite E. eauto.
    + intros buf. unfold Write. run. rewrite E. eauto.
    + intros acts r. rewrite performAll_eq, observe_written by done. eauto.
    + unfold maybeWriteHeader. rewrite E. by destruct σ.
  - cbn zeta. split_and!.
    + intros code. unfold WriteHeader. run. rewrite E. eauto.
    + intros buf. unfold Write. run. rewrite E. eauto.
    + unfold maybeWriteHeader, WriteHeader. run. by rewrite E.
    + intros σ'. unfold maybeWriteHeader. by destruct σ'.
Qed.

(** C6. Every record one call logs carries, under req_id, the value the
    resolver returned for the request's context, so the req_start and the
    req_served record agree on it; with the default constructor that value
    is the empty string. *)
Theorem req_id_is_the_resolved_one l name reqidf h w r σ :
  match reqidf (Context r) with
  | Yields reqID =>
      Forall (λ e, data e !! "req_id" = Some (VString reqID))
        (records (added σ (NewGlogrusWithReqId l name reqidf h w r σ)))
  | Throws _ => records (added σ (NewGlogrusWithReqId l name reqidf h w r σ)) = []
  end ∧
  Forall (λ e, data e !! "req_id" = Some (VString ""))
    (records (added σ (NewGlogrus l name h w r σ))) ∧
  named "req_start" (added σ (NewGlogrus l name h w r σ)) ≠ [].
Proof.
  unfold NewGlogrus, NewGlogrusWithReqId. rewrite !fn_added, !records_trail.
  rewrite named_start_trail. unfold emptyRequestId. split_and!; [|..|done].
  - destruct (reqidf (Context r)); [|done].
    destruct (ending (h r)); repeat constructor.
  - destruct (ending (h r)); repeat constructor.
Qed.

(** C7. A panic of the resolver leaves [fn] as the same panic, with nothing
    logged and the handler never invoked; a panic of the wrapped handler
    leaves [fn] as the same panic, with the req_start record logged and no
    req_served record.  In both cases the resolver was called once and the
    handler at most once. *)
Theorem panics_pass_through l name reqidf h w r σ :
  match reqidf (Context r), ending (h r) with
  | Throws v, _ =>
      NewGlogrusWithReqId l name reqidf h w r σ =
      Panicked v (mkWorld (clock σ) (history σ ++ [EvResolve]))
  | Yields reqID, Panics v =>
      let out := NewGlogrusWithReqId l name reqidf h w r σ in
      (∃ σ', out = Panicked v σ') ∧
      records (added σ out) = [start_entry reqID r] ∧
      calls (added σ out) = [EvResolve; EvEnter]
  | Yields _, Returns =>
      ∃ r' σ', NewGlogrusWithReqId l name reqidf h w r σ = Normal r' σ'
  end.
Proof.
  unfold NewGlogrusWithReqId.
  destruct (reqidf (Context r)) as [reqID|v] eqn:Eid.
  - destruct (ending (h r)) as [|v] eqn:Eend.
    + rewrite fn_eq, Eid, Eend. eauto.
    + cbn zeta. rewrite fn_added, records_trail.
      rewrite fn_eq. unfold trail. rewrite Eid, Eend. split_and!; [eauto|done|].
      cbn zeta. rewrite app_nil_r. unfold calls. rewrite omap_app.
      cbn [omap list_omap app]. f_equal. f_equal.
      induction (actions (h r)) as [|[] acts IH]; cbn; done.
  - by rewrite fn_eq, Eid.
Qed.

(** C8. The middleware of the default constructor is the middleware of
    [NewGlogrusWithReqId] for the resolver that returns the empty string for
    every context: on every handler, writer, request and world the two give
    the same outcome. *)
Theorem default_constructor_is_empty_resolver l name :
  NewGlogrus l name = NewGlogrusWithReqId l name (λ _ : Ctx, Yields "") ∧
  ∀ h w r σ,
    NewGlogrus l name h w r σ =
    NewGlogrusWithReqId l name (λ _ : Ctx, Yields "") h w r σ.
Proof. by split. Qed.

(** C10. When a call returns normally, the method, uri and remote fields of
    its req_served record hold the request's [Method], [RequestURI] and
    [RemoteAddr] as the wrapped handler left them, while the req_start
    record holds them as they were on entry; so if the handler left the
    three unchanged, the two records agree on these fields. *)
Theorem served_request_fields_read_after_handler l name reqidf h w r σ r' σ' :
  NewGlogrusWithReqId l name reqidf h w r σ = Normal r' σ' →
  r' = mutate (actions (h r)) r ∧
  ∃ e0 e1,
    records (added σ (Normal r' σ')) = [e0; e1] ∧
    message e0 = "req_start" ∧ message e1 = "req_served" ∧
    data e0 !! "method" = Some (VString (Method r)) ∧
    data e0 !! "uri" = Some (VString (RequestURI r)) ∧
    data e0 !! "remote" = Some (VString (RemoteAddr r)) ∧
    data e1 !! "method" = Some (VString (Method r')) ∧
    data e1 !! "uri" = Some (VString (RequestURI r')) ∧
    data e1 !! "remote" = Some (VString (RemoteAddr r')) ∧
    (Method r' = Method r → RequestURI r' = RequestURI r →
     RemoteAddr r' = RemoteAddr r →
     data e1 !! "method" = data e0 !! "method" ∧
     data e1 !! "uri" = data e0 !! "uri" ∧
     data e1 !! "remote" = data e0 !! "remote").
Proof.
  unfold NewGlogrusWithReqId. intros Hrun.
  pose proof (fn_added l name reqidf h w r σ) as Hadd.
  pose proof (records_trail l name reqidf h w r) as Hrec.
  rewrite <- Hadd in Hrec. rewrite Hrun in Hrec. rewrite fn_eq in Hrun.
  destruct (reqidf (Context r)) as [reqID|v]; [|done].
  destruct (ending (h r)); [|done].
  injection Hrun as <- _. split; [done|].
  eexists _, _. split; [exact Hrec|].
  split_and!; try done. intros E1 E2 E3. split_and!.
  - change (Some (VString (Method (mutate (actions (h r)) r)))
            = Some (VString (Method r))). by rewrite E1.
  - change (Some (VString (RequestURI (mutate (actions (h r)) r)))
            = Some (VString (RequestURI r))). by rewrite E2.
  - change (Some (VString (RemoteAddr (mutate (actions (h r)) r)))
            = Some (VString (RemoteAddr r))). by rewrite E3.
Qed.

Lemma saturate_elapsed (n : N) : 0 ≤ saturate (Z.of_N n) ≤ maxDuration.
Proof. unfold saturate, minDuration, maxDuration. lia. Qed.

(** C5. In every req_served record the latency comes from a duration [d]
    that is not negative: the time read after the handler minus the time
    read at the start, as [time.Since] reports it, in nanoseconds.  The
    latency in milliseconds is [+0] or a positive finite float64 whose
    value is [d / 10^6] up to the float64 rounding error, a relative
    [2^-48] at most.  The latency field is a non-empty run of decimal
    digits, a point, exactly four decimal digits and then " ms"; the number
    these digits denote is the float64 rounded to four decimals, so in
    units of 100 ns it is [d / 100] rounded: it differs from [d] by at most
    50 ns plus [d / 2^48], which is 50 ns for every duration below
    [2^48] ns.  A call that completes normally has such a record. *)
Theorem latency_is_nonnegative_with_four_decimals l name reqidf h w r σ :
  let out := NewGlogrusWithReqId l name reqidf h w r σ in
  Forall (λ e, ∃ d n ip fp,
            d = saturate (clock (final_world out) - clock σ) ∧ 0 ≤ d ∧
            nonneg_finite (latency_ms d) ∧ nearest4 (latency_ms d) n ∧
            (Qabs (F2Q (latency_ms d) * 1000000 - inject_Z d)
             <= inject_Z d * (1 # 2 ^ 48))%Q ∧
            2 ^ 48 * Z.abs (100 * n - d) ≤ 50 * 2 ^ 48 + d ∧
            data e !! "latency" = Some (VString (ip +:+ "." +:+ fp +:+ " ms")) ∧
            ip ≠ "" ∧ all_digits ip = true ∧ all_digits fp = true ∧
            String.length fp = 4%nat ∧ number ip * 10000 + number fp = n)
    (named "req_served" (added σ out)) ∧
  (∀ r' σ', out = Normal r' σ' → named "req_served" (added σ out) ≠ []).
Proof.
  cbn zeta. unfold NewGlogrusWithReqId. rewrite fn_added, named_served_trail.
  rewrite fn_eq. destruct (reqidf (Context r)) as [reqID|v]; [|done].
  destruct (ending (h r)) as [|v]; [|done]. cbn zeta. split; [|done].
  constructor; [|constructor]. cbn [final_world clock].
  replace (clock σ + Z.of_N (spent (actions (h r))) - clock σ)
    with (Z.of_N (spent (actions (h r)))) by lia.
  pose proof (saturate_elapsed (spent (actions (h r)))) as Hd.
  set (d := saturate _) in *.
  pose proof (plain_nonneg_finite _ _ _ _ (latency_ms_plain d Hd)) as Hfin.
  destruct (Sprintf_latency_spec _ Hfin) as (n & ip & fp & ? & Hn & Hs & ? & ? & ? & ? & ?).
  destruct (shown_latency d n Hd Hn) as [Hclose Hshown].
  exists d, n, ip, fp. split_and!; try done; try lia.
  change (Some (VString (Sprintf_latency (latency_ms d)))
          = Some (VString (ip +:+ "." +:+ fp +:+ " ms"))).
  by rewrite Hs.
Qed.

End Claims.

Ltac tick := unfold advance at 1; cbn [handler writer stage step]; run.

Section Interleaving.

Context {Ctx : Type}.
Variables (l : Logger) (name : string) (reqidf : Ctx → Call string).
Implicit Types (t : Thread (Ctx:=Ctx)) (σ : World).

(** A step reads nothing of the world but the clock, and only appends to
    the history. *)
Lemma advance_local t σ :
  ∃ evs,
    history (advance l name reqidf t σ).2 = history σ ++ evs ∧
    advance l name reqidf t (mkWorld (clock σ) []) =
      ((advance l name reqidf t σ).1,
       mkWorld (clock (advance l name reqidf t σ).2) evs).
Proof.
  destruct t as [h w s], σ as [c hs]. unfold advance. cbn [handler writer stage].
  destruct s as [r|start r|start reqID r|start reqID r|start reqID lresp r [|a todo] e
                |start reqID lresp r|start reqID lresp r|start reqID lresp r lat|r|v];
    unfold step, call; try destruct e; try destruct (reqidf (Context r)); run;
    rewrite ?perform_eq, ?maybeWriteHeader_eq; cbn [fst snd clock history app];
    eexists; (split; [reflexivity || by rewrite app_nil_r|reflexivity]).
Qed.

Lemma run_alone_stuck fuel (h : Handler Ctx) w (s : Stage) σ :
  (∃ r, s = Finished r) ∨ (∃ v, s = Crashed v) →
  run_alone l name reqidf fuel (mkThread h w s) σ = (mkThread h w s, σ).
Proof.
  intros Hs. induction fuel as [|fuel IH]; [done|].
  cbn [run_alone]. unfold advance. cbn [handler writer stage].
  destruct Hs as [[r ->]|[v ->]]; cbn [step]; run; apply IH.
Qed.

Lemma run_alone_handler k (h : Handler Ctx) w start reqID lresp r todo e σ :
  run_alone l name reqidf (length todo + k)
    (mkThread h w (InHandler start reqID lresp r todo e)) σ =
  run_alone l name reqidf k
    (mkThread h w (InHandler start reqID (observe todo lresp) (mutate todo r) [] e))
    (mkWorld (clock σ + Z.of_N (spent todo))
             (history σ ++ wired (underlying lresp) todo)).
Proof.
  revert lresp r σ. induction todo as [|a todo IH]; intros lresp r σ.
  - destruct σ. cbn. by rewrite Z.add_0_r, app_nil_r.
  - cbn [length Nat.add run_alone]. unfold advance at 1. cbn [handler writer stage step].
    run. rewrite perform_eq. cbn [fst snd]. rewrite IH. cbn [clock history].
    rewrite observe1_underlying. f_equal. f_equal.
    + unfold spent. destruct a; cbn; lia.
    + rewrite <- app_assoc. f_equal. by destruct a.
Qed.

(** Run to completion by itself, the stage machine is [fn]. *)
Lemma run_alone_fn (h : Handler Ctx) w r σ :
  outcome_of (run_alone l name reqidf (8 + length (actions (h r))) (spawn h w r) σ)
  = Some (fn l name reqidf h w r σ).
Proof.
  rewrite fn_eq. unfold spawn. destruct σ as [c hs].
  replace (8 + length (actions (h r)))%nat
    with (S (S (S (S (length (actions (h r)) + 4))))) by lia.
  cbn [run_alone]. tick. tick. unfold call.
  destruct (reqidf (Context r)) as [reqID|v]; run.
  - tick. tick. rewrite run_alone_handler. cbn [clock history underlying wrapWriter].
    cbn [Nat.add run_alone]. tick.
    destruct (ending (h r)) as [|v]; run.
    + tick. rewrite maybeWriteHeader_eq. run. tick. tick.
      unfold outcome_of. cbn [fst snd stage]. rewrite status_finalized.
      replace (c + Z.of_N (spent (actions (h r))) - c)
        with (Z.of_N (spent (actions (h r)))) by lia.
      by rewrite <- !app_assoc.
    + tick. tick. tick. unfold outcome_of. cbn [fst snd stage].
      by rewrite <- !app_assoc.
  - tick. tick. rewrite run_alone_stuck by eauto. done.
Qed.

(** What a call emits in an interleaving is what it emits by itself when
    the clock shows it the same readings. *)
Lemma interleave_replay (sched : list bool) (ta tb : Thread) σ (i : bool) :
  let sls := (interleave l name reqidf sched ta tb σ).1 in
  map emitted (slices_of i sls) =
  replay l name reqidf (map at_clock (slices_of i sls)) (if i then ta else tb).
Proof.
  cbn zeta. revert ta tb σ. induction sched as [|j sched IH]; intros ta tb σ; [done|].
  cbn [interleave].
  destruct (advance_local (if j then ta else tb) σ) as (evs & Hevs & Hloc).
  destruct (advance l name reqidf (if j then ta else tb) σ) as [t' σ'] eqn:Eadv.
  cbn [fst snd] in Hevs, Hloc.
  specialize (IH (if j then t' else ta) (if j then tb else t') σ').
  destruct (interleave l name reqidf sched _ _ σ') as [sls fin]. cbn [fst] in *.
  unfold slices_of in *. rewrite filter_cons. cbn [who].
  destruct (decide (j = i)) as [->|Hji].
  - cbn [map emitted at_clock replay]. rewrite Hloc. cbn [history].
    rewrite Hevs, drop_app_length. f_equal.
    rewrite IH. by destruct i.
  - rewrite IH. by destruct i, j.
Qed.

Lemma bound_for_advance (z : Z) t σ :
  bound_for z t →
  bound_for z (advance l name reqidf t σ).1 ∧
  Forall (λ e, data e !! "status" = Some (VInt z))
    (named "req_served" (added σ (Normal tt (advance l name reqidf t σ).2))).
Proof.
  destruct t as [h w s], σ as [c hs]. unfold bound_for, advance, added.
  cbn [handler writer stage final_world].
  destruct s as [r|start r|start reqID r|start reqID r|start reqID lresp r [|a todo] e
                |start reqID lresp r|start reqID lresp r|start reqID lresp r lat|r|v];
    unfold step, call; try destruct e; try destruct (reqidf (Context r)); run;
    rewrite ?perform_eq, ?maybeWriteHeader_eq; cbn [fst snd clock history stage];
    rewrite ?drop_app_length, ?drop_all; intros Hz.
  all: split;
    [ first [ exact Hz
            | by unfold settled; rewrite observe_fresh
            | by unfold settled, status in *; destruct (statusWritten _)
            | done ]
    | rewrite ?named_wired, ?named_finalized;
      first [ by constructor | constructor; [by rewrite <- Hz|constructor] ] ].
Qed.

Lemma replay_status (z : Z) (stamps : list Z) t :
  bound_for z t →
  Forall (λ e, data e !! "status" = Some (VInt z))
    (named "req_served" (concat (replay l name reqidf stamps t))).
Proof.
  revert t. induction stamps as [|c stamps IH]; intros t Hz; [constructor|].
  cbn [replay].
  destruct (bound_for_advance z t (mkWorld c []) Hz) as [Hz' Hnow].
  destruct (advance l name reqidf t (mkWorld c [])) as [t' σ'].
  cbn [concat]. rewrite named_app. apply Forall_app. split; [|by apply IH].
  unfold added in Hnow. by rewrite drop_0 in Hnow.
Qed.

(** C9. Two calls on the same middleware, interleaved statement by
    statement in any order on a shared clock and sink: what either call
    emits, records included, is what it emits when it runs by itself with
    the clock showing the readings it saw, so it is a function of the
    call's own request, handler and clock readings and of nothing the other
    call did; in particular every req_served record a call emits carries
    the status of its own handler.  Run by itself to completion, such a
    call is [fn]. *)
Theorem calls_do_not_interfere (sched : list bool) (ha hb : Handler Ctx)
    (wa wb : ResponseWriter) (ra rb : Request Ctx) σ (i : bool) :
  let ta := spawn ha wa ra in
  let tb := spawn hb wb rb in
  let mine := slices_of i (interleave l name reqidf sched ta tb σ).1 in
  let h := if i then ha else hb in
  let w := if i then wa else wb in
  let r := if i then ra else rb in
  map emitted mine = replay l name reqidf (map at_clock mine) (spawn h w r) ∧
  Forall (λ e, data e !! "status" = Some (VInt (claimed_status (actions (h r)))))
    (named "req_served" (concat (map emitted mine))) ∧
  outcome_of (run_alone l name reqidf (8 + length (actions (h r))) (spawn h w r) σ)
    = Some (NewGlogrusWithReqId l name reqidf h w r σ).
Proof.
  cbn zeta.
  pose proof (interleave_replay sched (spawn ha wa ra) (spawn hb wb rb) σ i) as Hre.
  cbn zeta in Hre.
  assert (Hsp : (if i then spawn ha wa ra else spawn hb wb rb)
                = spawn (if i then ha else hb) (if i then wa else wb)
                        (if i then ra else rb)) by (by destruct i).
  rewrite Hsp in Hre. split_and!; [done| |apply run_alone_fn].
  rewrite Hre. by apply replay_status.
Qed.

End Interleaving.

(** * The scenarios, evaluated *)

(** Scenario A: the handler sets 404 and writes no body. *)
Example scenario_A :
  map (λ e, (data e !! "status", data e !! "latency"))
      (named "req_served"
         (added world0 (NewGlogrus 1%nat "app" notFound 7%nat ping world0)))
  = [(Some (VInt 404), Some (VString "12.3456 ms"))].
Proof. reflexivity. Qed.

(** Scenario B: body bytes first; a later status does not count. *)
Example scenario_B :
  map (λ e, data e !! "status")
      (named "req_served"
         (added world0 (NewGlogrus 1%nat "app" bodyOnly 7%nat ping world0)))
  = [Some (VInt 200)].
Proof. reflexivity. Qed.

(** Scenario C: nothing written; the finalisation sends one header. *)
Example scenario_C :
  let evs := added world0 (NewGlogrus 1%nat "app" silent 7%nat ping world0) in
  map (λ e, data e !! "status") (named "req_served" evs) = [Some (VInt 200)] ∧
  omap (λ ev, match ev with EvWire w op => Some (w, op) | _ => None end) evs
    = [(7%nat, WireHeader 200)].
Proof. split; reflexivity. Qed.

(** Scenario D: both records carry the resolved identifier. *)
Example scenario_D :
  map (λ e, (message e, data e !! "req_id"))
      (records (added world0
                  (NewGlogrusWithReqId 1%nat "app" fixedId notFound 7%nat ping world0)))
  = [("req_start", Some (VString "req-123"));
     ("req_served", Some (VString "req-123"))].
Proof. reflexivity. Qed.

(** Scenario E: two calls interleaved; each logs its own status. *)
Example scenario_E :
  let sched := [true; false; true; false; false; true; true; false; false; false;
                true; true; false; false; true; true; true; false; false; true] in
  let sls := (interleave 1%nat "app" fixedId sched
                (spawn notFound 7%nat ping) (spawn bodyOnly 8%nat pong) world0).1 in
  map (λ e, (data e !! "uri", data e !! "status"))
      (named "req_served" (concat (map emitted (slices_of true sls))))
    = [(Some (VString "/ping"), Some (VInt 404))] ∧
  map (λ e, (data e !! "uri", data e !! "status"))
      (named "req_served" (concat (map emitted (slices_of false sls))))
    = [(Some (VString "/pong"), Some (VInt 200))].
Proof. split; reflexivity. Qed.

(** A handler that assigns to the request changes what req_served shows. *)
Example rewritten_uri_is_logged :
  map (λ e, (message e, data e !! "uri"))
      (records (added world0 (NewGlogrus 1%nat "app" rewriting 7%nat ping world0)))
  = [("req_start", Some (VString "/ping")); ("req_served", Some (VString "/other"))].
Proof. reflexivity. Qed.


(** * The theorems with premises, applied to the scenarios *)

Lemma one_start_before_one_served_after_witness :
  let evs := added world0
               (NewGlogrusWithReqId 1%nat "app" fixedId notFound 7%nat ping world0) in
  let evs' := added world0
                (NewGlogrusWithReqId 1%nat "app" fixedId crashing 7%nat ping world0) in
  (length (named "req_start" (take 2 evs)) = 1%nat ∧
   named "req_start" (drop 3 evs) = [] ∧ named "req_served" (take 2 evs) = []) ∧
  (named "req_served" (take 4 evs) = [] ∧
   length (named "req_served" (drop 5 evs)) = 1%nat) ∧
  ((EvEnter ∈ evs) ∧ (EvLeave ∈ evs)) ∧
  ((EvLeave ∉ evs') ∧ named "req_served" evs' = []).
Proof.
  cbn zeta.
  destruct (one_start_before_one_served_after
              1%nat "app" fixedId notFound 7%nat ping world0) as (H1 & H2 & _ & H4 & _).
  destruct (one_start_before_one_served_after
              1%nat "app" fixedId crashing 7%nat ping world0) as (_ & _ & H3 & _).
  set (evs := added world0
                (NewGlogrusWithReqId 1%nat "app" fixedId notFound 7%nat ping world0)) in *.
  refine (conj _ (conj _ (conj _ _))).
  - exact (H1 (take 2 evs) (drop 3 evs) eq_refl).
  - exact (H2 (take 4 evs) (drop 5 evs) eq_refl).
  - destruct (H4 "req-123" eq_refl) as [Hin Hout]. split; [exact Hin|exact (Hout eq_refl)].
  - apply H3. discriminate.
Defined.

Lemma status_is_recorded_at_most_once_witness :
  (∃ σ', WriteHeader (mkObserver 7%nat true 404) 500 world0
         = Normal (mkObserver 7%nat true 404) σ') ∧
  maybeWriteHeader (mkObserver 7%nat true 404) world0
    = Normal (mkObserver 7%nat true 404) world0 ∧
  maybeWriteHeader (wrapWriter 7%nat) world0
    = Normal (mkObserver 7%nat true 200)
        (mkWorld 1000 [EvWire 7%nat (WireHeader 200)]).
Proof.
  destruct (status_is_recorded_at_most_once (Ctx:=unit) (mkObserver 7%nat true 404) world0)
    as [Hset _].
  destruct (status_is_recorded_at_most_once (Ctx:=unit) (wrapWriter 7%nat) world0)
    as [_ Hunset].
  destruct (Hset eq_refl) as (Hwh & _ & _ & Hfin).
  destruct (Hunset eq_refl) as (_ & _ & Hfin' & _).
  split_and!; [apply Hwh|exact Hfin|exact Hfin'].
Defined.

Lemma latency_is_nonnegative_with_four_decimals_witness :
  named "req_served"
    (added world0 (NewGlogrusWithReqId 1%nat "app" fixedId notFound 7%nat ping world0))
  ≠ [].
Proof.
  destruct (latency_is_nonnegative_with_four_decimals
              1%nat "app" fixedId notFound 7%nat ping world0) as [_ H].
  apply (H ping (final_world
                   (NewGlogrusWithReqId 1%nat "app" fixedId notFound 7%nat ping world0))).
  reflexivity.
Defined.

Lemma served_request_fields_read_after_handler_witness :
  let out := NewGlogrusWithReqId 1%nat "app" fixedId rewriting 7%nat ping world0 in
  let r' := mkRequest "GET" "/other" "10.0.0.1:5555" tt in
  out = Normal r' (final_world out) ∧
  ∃ e0 e1,
    records (added world0 out) = [e0; e1] ∧
    data e0 !! "uri" = Some (VString "/ping") ∧
    data e1 !! "uri" = Some (VString "/other").
Proof.
  cbn zeta. split; [reflexivity|].
  destruct (served_request_fields_read_after_handler
              1%nat "app" fixedId rewriting 7%nat ping world0
              (mkRequest "GET" "/other" "10.0.0.1:5555" tt)
              (final_world
                 (NewGlogrusWithReqId 1%nat "app" fixedId rewriting 7%nat ping world0))
              eq_refl)
    as (_ & e0 & e1 & Hrec & _ & _ & _ & H0 & _ & _ & H1 & _).
  exists e0, e1. split_and!; [exact Hrec|exact H0|exact H1].
Defined.

(** * Further properties of the middleware *)

Section Further.

Context {Ctx : Type}.
Implicit Types (r : Request Ctx) (h : Handler Ctx) (acts : list (Action Ctx)).
Implicit Types (σ : World) (reqidf : Ctx → Call string).
Implicit Types (l : Logger) (w : ResponseWriter) (name : string).

Lemma calls_wired w acts : calls (wired w acts) = [].
Proof. induction acts as [|[] acts IH]; cbn; done. Qed.

Lemma calls_finalized (o : ResponseObserver) : calls (finalized o) = [].
Proof. unfold finalized. by destruct (statusWritten o). Qed.

(** X1. Whatever the resolver and the handler do, a call of the middleware
    calls the resolver exactly once, as the first thing the surroundings can
    see, and calls the wrapped handler once if the resolver yields and not at
    all if it panics. *)
Theorem outside_code_is_called_once l name reqidf h w r σ :
  let evs := added σ (NewGlogrusWithReqId l name reqidf h w r σ) in
  head evs = Some EvResolve ∧
  calls evs = match reqidf (Context r) with
              | Yields _ => [EvResolve; EvEnter]
              | Throws _ => [EvResolve]
              end.
Proof.
  cbn zeta. unfold NewGlogrusWithReqId. rewrite fn_added. unfold trail, calls.
  destruct (reqidf (Context r)) as [reqID|v]; [|done]. split; [done|].
  cbn zeta. rewrite !omap_app. fold (calls (wired w (actions (h r)))).
  rewrite calls_wired. destruct (ending (h r)); [|done].
  rewrite !omap_app. fold (calls (finalized (observe (actions (h r)) (wrapWriter w)))).
  by rewrite calls_finalized.
Qed.

(** X2. A call never drops or changes what the history already holds, and
    what it adds, like the time it takes, depends neither on that history
    nor on the absolute reading of the clock. *)
Theorem a_call_only_appends l name reqidf h w r σ1 σ2 :
  let out1 := NewGlogrusWithReqId l name reqidf h w r σ1 in
  let out2 := NewGlogrusWithReqId l name reqidf h w r σ2 in
  history (final_world out1) = history σ1 ++ added σ1 out1 ∧
  added σ1 out1 = added σ2 out2 ∧
  clock (final_world out1) - clock σ1 = clock (final_world out2) - clock σ2.
Proof.
  cbn zeta. unfold NewGlogrusWithReqId. rewrite !fn_added. rewrite !fn_eq.
  unfold trail. destruct (reqidf (Context r)) as [reqID|v].
  - cbn zeta. destruct (ending (h r)); cbn [final_world history clock];
      split_and!; try done; try lia; by rewrite <- ?app_assoc, ?app_nil_r.
  - cbn [final_world history clock]. split_and!; try done; lia.
Qed.

(** X3. Two calls served one after the other: if the first returns, the
    history gains what the first adds followed by what the second adds, each
    as it would be from any other world; if the first panics the second is
    never started. *)
Theorem calls_in_sequence l name reqidf h1 w1 r1 h2 w2 r2 σ σa σb :
  let first := NewGlogrusWithReqId l name reqidf h1 w1 r1 in
  let second := NewGlogrusWithReqId l name reqidf h2 w2 r2 in
  added σ ((_ ← first; second) σ) =
  match first σ with
  | Normal _ _ => added σa (first σa) ++ added σb (second σb)
  | Panicked _ _ => added σa (first σa)
  end.
Proof.
  cbn zeta. unfold NewGlogrusWithReqId. rewrite !fn_added.
  pose proof (fn_added l name reqidf h1 w1 r1 σ) as H1.
  unfold added in H1. unfold mbind, M_bind, M_seq.
  destruct (fn l name reqidf h1 w1 r1 σ) as [r1' σ1|v σ1] eqn:E1.
  - pose proof (fn_added l name reqidf h2 w2 r2 σ1) as H2.
    assert (Hh1 : history σ1 = history σ ++ trail l name reqidf h1 w1 r1).
    { pose proof (fn_eq l name reqidf h1 w1 r1 σ) as Heq. rewrite E1 in Heq.
      unfold trail. destruct (reqidf (Context r1)); [|done].
      destruct (ending (h1 r1)); [|done]. injection Heq as _ ->.
      cbn [history]. by rewrite <- !app_assoc. }
    assert (Hh2 : history (final_world (fn l name reqidf h2 w2 r2 σ1))
                  = history σ1 ++ trail l name reqidf h2 w2 r2).
    { rewrite fn_eq. unfold trail. destruct (reqidf (Context r2)); [|done].
      cbn zeta. destruct (ending (h2 r2)); cbn [final_world history];
        by rewrite <- ?app_assoc, ?app_nil_r. }
    apply added_app. by rewrite Hh2, Hh1, <- app_assoc.
  - exact H1.
Qed.

Lemma without_app_wired w acts :
  map without_app (wired w acts) = wired w acts.
Proof.
  induction acts as [|a acts IH]; [done|].
  destruct a; cbn; by rewrite ?IH; try (f_equal; exact IH).
Qed.

Lemma without_app_finalized (o : ResponseObserver) :
  map without_app (finalized o) = finalized o.
Proof. unfold finalized. by destruct (statusWritten o). Qed.

(** X4. The application name given at construction shows in the app field
    of the req_served records and nowhere else: with another name a call
    returns the same way, leaves the clock the same and adds the same
    events, up to that field. *)
Theorem name_only_fills_the_app_field l name1 name2 reqidf h w r σ :
  let out1 := NewGlogrusWithReqId l name1 reqidf h w r σ in
  let out2 := NewGlogrusWithReqId l name2 reqidf h w r σ in
  map without_app (added σ out1) = map without_app (added σ out2) ∧
  clock (final_world out1) = clock (final_world out2) ∧
  Forall (λ e, data e !! "app" = Some (VString name1))
    (named "req_served" (added σ out1)) ∧
  Forall (λ e, data e !! "app" = None) (named "req_start" (added σ out1)).
Proof.
  cbn zeta. unfold NewGlogrusWithReqId. rewrite !fn_added.
  rewrite named_served_trail, named_start_trail. rewrite !fn_eq.
  unfold trail. destruct (reqidf (Context r)) as [reqID|v]; [|by split_and!].
  cbn zeta. destruct (ending (h r)); cbn [final_world clock].
  - split_and!; [|done|by repeat constructor|by repeat constructor].
    rewrite !map_app, !without_app_wired, !without_app_finalized. done.
  - split_and!; [done|done|constructor|by repeat constructor].
Qed.

(** X5. Every record a call logs goes to the logger given at construction. *)
Theorem records_go_to_the_given_logger l name reqidf h w r σ :
  Forall (λ l', l' = l)
    (sinks (added σ (NewGlogrusWithReqId l name reqidf h w r σ))).
Proof.
  unfold NewGlogrusWithReqId. rewrite fn_added. unfold trail, sinks.
  assert (Hw : omap (λ ev, match ev with EvLog l' _ => Some l' | _ => None end)
                 (wired w (actions (h r))) = []).
  { induction (actions (h r)) as [|[] acts IH]; cbn; done. }
  assert (Hf : omap (λ ev, match ev with EvLog l' _ => Some l' | _ => None end)
                 (finalized (observe (actions (h r)) (wrapWriter w))) = []).
  { unfold finalized. by destruct (statusWritten _). }
  destruct (reqidf (Context r)) as [reqID|v]; [|constructor].
  cbn zeta. rewrite !omap_app, Hw. destruct (ending (h r)).
  - rewrite !omap_app, Hf. by repeat constructor.
  - by repeat constructor.
Qed.

(** X6. If the clock shows no advance between the start of a call and its
    end, the latency field of its req_served record is "0.0000 ms". *)
Theorem no_time_is_zero_latency l name reqidf h w r σ :
  let out := NewGlogrusWithReqId l name reqidf h w r σ in
  clock (final_world out) = clock σ →
  Forall (λ e, data e !! "latency" = Some (VString "0.0000 ms"))
    (named "req_served" (added σ out)).
Proof.
  cbn zeta. unfold NewGlogrusWithReqId. rewrite fn_added, named_served_trail.
  rewrite fn_eq. destruct (reqidf (Context r)) as [reqID|v]; [|constructor].
  cbn zeta. destruct (ending (h r)); [|constructor]. cbn [final_world clock].
  intros Hc. assert (spent (actions (h r)) = 0%N) as -> by lia.
  by repeat constructor.
Qed.

Lemma advance_still_to_log l name reqidf (t : Thread (Ctx:=Ctx)) (c : Z) :
  let msgs := map message (records (history (advance l name reqidf t (mkWorld c [])).2)) in
  let left := still_to_log (stage (advance l name reqidf t (mkWorld c [])).1) in
  msgs ++ left = still_to_log (stage t) ∨ (msgs = [] ∧ left = []).
Proof.
  destruct t as [h w s]. unfold advance. cbn [handler writer stage].
  destruct s as [r|start r|start reqID r|start reqID r|start reqID lresp r [|a todo] e
                |start reqID lresp r|start reqID lresp r|start reqID lresp r lat|r|v];
    unfold step, call; try destruct e; try destruct (reqidf (Context r)); run;
    rewrite ?perform_eq, ?maybeWriteHeader_eq; cbn [fst snd clock history stage app];
    rewrite ?records_wired, ?records_finalized; auto.
Qed.

Lemma replay_still_to_log l name reqidf (stamps : list Z) (t : Thread (Ctx:=Ctx)) :
  map message (records (concat (replay l name reqidf stamps t)))
    `prefix_of` still_to_log (stage t).
Proof.
  revert t. induction stamps as [|c stamps IH]; intros t; [apply prefix_nil|].
  cbn [replay]. pose proof (advance_still_to_log l name reqidf t c) as Hstep.
  cbn zeta in Hstep. specialize (IH (advance l name reqidf t (mkWorld c [])).1).
  destruct (advance l name reqidf t (mkWorld c [])) as [t' σ']. cbn [fst snd] in *.
  cbn [concat]. rewrite records_app, map_app.
  destruct Hstep as [<-|[-> Hleft]].
  - by apply prefix_app.
  - rewrite Hleft in IH. apply prefix_nil_inv in IH. rewrite IH. apply prefix_nil.
Qed.

(** X7. Two calls on the same middleware, interleaved in any order: the
    records either call logs are, by their event names, a prefix of
    req_start, req_served; so a call logs at most one of each, never a
    req_served record without its req_start record before it, and nothing
    after its req_served record, however many turns the schedule gives it. *)
Theorem a_call_logs_start_then_served (l : Logger) (name : string)
    (reqidf : Ctx → Call string) (sched : list bool) (ha hb : Handler Ctx)
    (wa wb : ResponseWriter) (ra rb : Request Ctx) σ (i : bool) :
  let mine := slices_of i (interleave l name reqidf sched
                             (spawn ha wa ra) (spawn hb wb rb) σ).1 in
  map message (records (concat (map emitted mine)))
    `prefix_of` ["req_start"; "req_served"].
Proof.
  cbn zeta. rewrite (interleave_replay l name reqidf sched _ _ σ i).
  pose proof (replay_still_to_log l name reqidf
                (map at_clock
                   (slices_of i (interleave l name reqidf sched
                                   (spawn ha wa ra) (spawn hb wb rb) σ).1))
                (if i then spawn ha wa ra else spawn hb wb rb)) as H.
  by destruct i.
Qed.

Ltac beat := cbn [replay]; unfold advance at 1; cbn [handler writer stage step]; run.

Lemma replay_stuck l name reqidf (stamps : list Z) (h : Handler Ctx) w (s : Stage) :
  (∃ r, s = Finished r) ∨ (∃ v, s = Crashed v) →
  concat (replay l name reqidf stamps (mkThread h w s)) = [].
Proof.
  intros Hs. induction stamps as [|c stamps IH]; [done|].
  destruct Hs as [[r ->]|[v ->]]; beat; cbn [concat app]; apply IH; eauto.
Qed.

Lemma replay_handler l name reqidf (h : Handler Ctx) w start reqID lresp r todo e
    (cs rest : list Z) :
  length cs = length todo →
  concat (replay l name reqidf (cs ++ rest)
            (mkThread h w (InHandler start reqID lresp r todo e))) =
  wired (underlying lresp) todo ++
  concat (replay l name reqidf rest
            (mkThread h w (InHandler start reqID (observe todo lresp)
                             (mutate todo r) [] e))).
Proof.
  revert cs lresp r. induction todo as [|a todo IH]; intros cs lresp r Hlen.
  - by destruct cs.
  - destruct cs as [|c cs]; [done|]. cbn [app]. beat. rewrite perform_eq.
    cbn [fst snd history concat]. rewrite IH by (cbn in Hlen; lia).
    rewrite observe1_underlying, app_assoc. f_equal. by destruct a.
Qed.

(** A call that was given all the turns it needs has emitted the events of
    [fn], with the latency taken between its own two readings of the
    clock. *)
Lemma replay_complete l name reqidf (h : Handler Ctx) w r (stamps : list Z) :
  (8 + length (actions (h r)) ≤ length stamps)%nat →
  ∃ c0 c1,
    stamps !! 0%nat = Some c0 ∧
    stamps !! (6 + length (actions (h r)))%nat = Some c1 ∧
    concat (replay l name reqidf stamps (spawn h w r))
    = trail_with l name reqidf h w r (saturate (c1 - c0)).
Proof.
  intros Hlen. destruct stamps as [|c0 [|c2 [|c3 [|c4 tl]]]]; cbn in Hlen; try lia.
  set (n := length (actions (h r))) in *.
  pose proof (take_drop n tl) as Htl.
  assert (Hn : length (take n tl) = n) by (rewrite length_take; lia).
  assert (Hd : (4 ≤ length (drop n tl))%nat) by (rewrite length_drop; lia).
  destruct (drop n tl) as [|c5 [|c6 [|c1 [|c8 rest]]]] eqn:Edrop; cbn in Hd; try lia.
  exists c0, c1. split_and!; [done| |].
  - replace (6 + n)%nat with (S (S (S (S (n + 2))))) by lia. cbn [lookup list_lookup].
    change (tl !! (n + 2)%nat = Some c1). rewrite <- lookup_drop, Edrop. done.
  - unfold spawn, trail_with. beat. beat. unfold call.
    destruct (reqidf (Context r)) as [reqID|v]; run.
    + beat. beat. rewrite <- Htl. cbn [concat fst snd history].
      rewrite replay_handler by done.
      cbn [underlying wrapWriter]. fold n.
      destruct (ending (h r)) as [|v]; beat.
      * beat. rewrite maybeWriteHeader_eq. run. beat. beat.
        cbn [fst snd history concat app]. rewrite replay_stuck by eauto.
        rewrite status_finalized. by rewrite ?app_nil_r, <- ?app_assoc.
      * beat. beat. beat.
        cbn [fst snd history concat app]. rewrite replay_stuck by eauto.
        by rewrite ?app_nil_r.
    + beat. beat.
      cbn [fst snd history concat app]. rewrite replay_stuck by eauto. done.
Qed.

Lemma fn_added_with l name reqidf h w r σ :
  added σ (NewGlogrusWithReqId l name reqidf h w r σ)
  = trail_with l name reqidf h w r
      (saturate (clock (final_world (NewGlogrusWithReqId l name reqidf h w r σ))
                 - clock σ)).
Proof.
  unfold NewGlogrusWithReqId. rewrite fn_added, fn_eq. unfold trail, trail_with.
  destruct (reqidf (Context r)) as [reqID|v]; [|done].
  cbn zeta. destruct (ending (h r)); [|done]. cbn [final_world clock].
  by replace (clock σ + Z.of_N (spent (actions (h r))) - clock σ)
    with (Z.of_N (spent (actions (h r)))) by lia.
Qed.

(** X8. In any interleaving of two calls on the same middleware, a call that
    got at least as many turns as [fn] has statements to execute has emitted
    exactly the events [fn] adds for its own request and handler, with the
    latency in its req_served record computed from the clock as the call
    itself read it at its first statement and at its [time.Since]. *)
Theorem a_finished_call_logged_its_own_latency (l : Logger) (name : string)
    (reqidf : Ctx → Call string) (sched : list bool) (ha hb : Handler Ctx)
    (wa wb : ResponseWriter) (ra rb : Request Ctx) σ (i : bool) :
  let mine := slices_of i (interleave l name reqidf sched
                             (spawn ha wa ra) (spawn hb wb rb) σ).1 in
  let h := if i then ha else hb in
  let w := if i then wa else wb in
  let r := if i then ra else rb in
  (∀ σ0, let out := NewGlogrusWithReqId l name reqidf h w r σ0 in
         added σ0 out
         = trail_with l name reqidf h w r
             (saturate (clock (final_world out) - clock σ0))) ∧
  ((8 + length (actions (h r)) ≤ length mine)%nat →
   ∃ c0 c1,
     map at_clock mine !! 0%nat = Some c0 ∧
     map at_clock mine !! (6 + length (actions (h r)))%nat = Some c1 ∧
     concat (map emitted mine)
     = trail_with l name reqidf h w r (saturate (c1 - c0))).
Proof.
  cbn zeta. split; [intros σ0; apply fn_added_with|]. intros Hlen.
  rewrite (interleave_replay l name reqidf sched _ _ σ i).
  assert (Hsp : (if i then spawn ha wa ra else spawn hb wb rb)
                = spawn (if i then ha else hb) (if i then wa else wb)
                        (if i then ra else rb)) by (by destruct i).
  rewrite Hsp. apply replay_complete. by rewrite length_map.
Qed.

End Further.

Lemma no_time_is_zero_latency_witness :
  Forall (λ e, data e !! "latency" = Some (VString "0.0000 ms"))
    (named "req_served"
       (added world0 (NewGlogrusWithReqId 1%nat "app" fixedId silent 7%nat ping world0))).
Proof.
  apply (no_time_is_zero_latency 1%nat "app" fixedId silent 7%nat ping world0).
  reflexivity.
Defined.

Lemma a_finished_call_logged_its_own_latency_witness :
  let sched := [true; false; true; false; false; true; true; false; false; false;
                true; true; false; false; true; true; true; false; false; true] in
  let mine := slices_of true
                (interleave 1%nat "app" fixedId sched
                   (spawn notFound 7%nat ping) (spawn bodyOnly 8%nat pong) world0).1 in
  ∃ c0 c1,
    map at_clock mine !! 0%nat = Some c0 ∧
    map at_clock mine !! 8%nat = Some c1 ∧
    concat (map emitted mine)
    = trail_with 1%nat "app" fixedId notFound 7%nat ping (saturate (c1 - c0)).
Proof.
  cbn zeta.
  destruct (a_finished_call_logged_its_own_latency 1%nat "app" fixedId
              [true; false; true; false; false; true; true; false; false; false;
               true; true; false; false; true; true; true; false; false; true]
              notFound bodyOnly 7%nat 8%nat ping pong world0 true) as [_ H].
  apply H. vm_compute. lia.
Defined.
